(** * STEALTH node: handler registry, neighbor directory, attending queue

    A shallow embedding of the three in-memory registries of [Node]
    (src/node.cc, src/node.h) and the properties of their operations.

    Conventions of the embedding
    - a [std::vector] is a [list]; [push_back] appends at the end, an
      iterator is a position in the list, [end ()] is the length;
    - dereferencing [end ()], or using an iterator that was never assigned
      or that an [erase] has invalidated, is undefined behaviour in C++: the
      embedding returns [Fault] there;
    - [double] is an IEEE 754 binary64 datum ([spec_float]), compared with
      the IEEE order ([SFltb]), so that a NaN is never greater than anything;
    - fixed-width integers are [Z] with the wrap-around written out;
    - [Address], [Ptr<NetDevice>], [Ptr<const Packet>] and the callback
      type come from the host simulator: they are parameters, compared
      with a decidable equality;
    - the logging and assertion macros ([NS_LOG_FUNCTION], [NS_LOG_DEBUG],
      [NS_ASSERT_MSG]) do not touch the registries and are left out. *)

From Stdlib Require Import ZArith Lia Bool String.
From Stdlib Require Import Floats.SpecFloat.
From stdpp Require Import base decidable option list strings.

Open Scope Z_scope.

(** ** Results of operations that can run into undefined behaviour *)

Inductive outcome (A : Type) : Type :=
  | Returns (a : A)
  | Fault.
Arguments Returns {A} a.
Arguments Fault {A}.

Definition outcome_map {A B : Type} (f : A -> B) (o : outcome A) : outcome B :=
  match o with
  | Returns a => Returns (f a)
  | Fault => Fault
  end.

(** [*it] for an iterator [it] of the vector [v]. *)
Definition deref {A : Type} (v : list A) (it : nat) : outcome A :=
  match v !! it with
  | Some x => Returns x
  | None => Fault
  end.

(** What a lookup returns when the search has found [o]. *)
Definition found_or_fault {A : Type} (o : option A) : outcome A :=
  match o with
  | Some x => Returns x
  | None => Fault
  end.

(** [std::vector::empty]. *)
Definition vector_empty {A : Type} (v : list A) : bool :=
  match v with
  | [] => true
  | _ :: _ => false
  end.

(** An iterator of a vector that is erased from: a position, or an
    iterator that [erase] has invalidated. *)
Inductive iterator : Type :=
  | At (pos : nat)
  | Invalidated.

(** ** Fixed-width integers *)

(** [uint8_t]: the value after [i++]. *)
Definition uint8_incr (i : Z) : Z := (i + 1) mod 256.

(** [(int) x] for a [size_t] value [x]: reduction modulo 2^32 into the
    signed range. *)
Definition to_int (x : Z) : Z := (x + 2147483648) mod 4294967296 - 2147483648.

Definition INT_MAX : Z := 2147483647.

(** [(uint32_t) x] for a [size_t] value [x]. *)
Definition to_uint32 (x : Z) : Z := x mod 4294967296.

(** [a.compare (b)] on [std::string]: negative, zero or positive as [a] is
    before, equal to or after [b] in the byte-wise lexicographic order; only
    the sign is specified. *)
Definition string_compare (a b : string) : Z :=
  match String.compare a b with
  | Eq => 0
  | Lt => -1
  | Gt => 1
  end.

(** ** Doubles *)

Definition double : Type := spec_float.

(** The literal [0.0]. *)
Definition d_zero : double := S754_zero false.

(** [a > b] on doubles. *)
Definition d_gt (a b : double) : bool := SFltb b a.

Definition d_is_nan (a : double) : bool :=
  match a with
  | S754_nan => true
  | _ => false
  end.

(** Some binary64 values used in the examples: 1.0, 0.9, 0.7, 0.4, 0.2. *)
Definition d_1_0 : double := S754_finite false 4503599627370496 (-52).
Definition d_0_9 : double := S754_finite false 8106479329266893 (-53).
Definition d_0_7 : double := S754_finite false 6305039478318694 (-53).
Definition d_0_4 : double := S754_finite false 7205759403792794 (-54).
Definition d_0_2 : double := S754_finite false 7205759403792794 (-55).

(** ** Neighbor directory *)

Module Neighbors.

Section Directory.

Context {Address : Type} `{EqDecision Address}.

Record Neighbor : Type := mkNeighbor {
  ip : Address;
  competence : string;
  interests : list string;
  trust : double;
  around : bool
}.

(** [typedef std::vector<struct Node::Neighbor> NeighborHandlerList]. *)
Local Abbreviation NeighborHandlerList := (list Neighbor).

Definition set_around (b : bool) (r : Neighbor) : Neighbor :=
  mkNeighbor (ip r) (competence r) (interests r) (trust r) b.

(** [Node::RegisterNeighbor]: fill a record, [around = true], [push_back]. *)
Definition RegisterNeighbor (ip0 : Address) (competence0 : string)
    (interests0 : list string) (trust0 : double)
    (m_neighborList : NeighborHandlerList) : NeighborHandlerList :=
  m_neighborList ++ [mkNeighbor ip0 competence0 interests0 trust0 true].

(** [Node::GetNeighborIpList]: the loop pushes [i->ip] on [NeighborIpList]. *)
Fixpoint GetNeighborIpList_loop (rest : NeighborHandlerList)
    (NeighborIpList : list Address) : list Address :=
  match rest with
  | [] => NeighborIpList
  | i :: rest' => GetNeighborIpList_loop rest' (NeighborIpList ++ [ip i])
  end.

Definition GetNeighborIpList (m_neighborList : NeighborHandlerList) : list Address :=
  GetNeighborIpList_loop m_neighborList [].

(** [Node::TurnOffLiveNeighbors]. *)
Fixpoint TurnOffLiveNeighbors (m_neighborList : NeighborHandlerList)
    : NeighborHandlerList :=
  match m_neighborList with
  | [] => []
  | i :: rest => set_around false i :: TurnOffLiveNeighbors rest
  end.

(** [Node::IsAlreadyNeighbor]: scan with [break] at the first match. *)
Fixpoint IsAlreadyNeighbor_loop (ip0 : Address) (rest : NeighborHandlerList)
    (inTheList : bool) : bool :=
  match rest with
  | [] => inTheList
  | i :: rest' =>
      if decide (ip i = ip0) then true
      else IsAlreadyNeighbor_loop ip0 rest' inTheList
  end.

Definition IsAlreadyNeighbor (ip0 : Address)
    (m_neighborList : NeighborHandlerList) : bool :=
  IsAlreadyNeighbor_loop ip0 m_neighborList false.

(** The erase-and-break loop of [Node::UnregisterNeighbor]. *)
Fixpoint erase_first (ip0 : Address) (rest : NeighborHandlerList)
    : NeighborHandlerList :=
  match rest with
  | [] => []
  | i :: rest' =>
      if decide (ip i = ip0) then rest' else i :: erase_first ip0 rest'
  end.

(** [Node::UnregisterNeighbor]. *)
Definition UnregisterNeighbor (ip0 : Address)
    (m_neighborList : NeighborHandlerList) : NeighborHandlerList :=
  if IsAlreadyNeighbor ip0 m_neighborList
  then erase_first ip0 m_neighborList
  else m_neighborList.

(** [Node::UnregisterOffNeighbors].  [m_neighborList.erase (i)] removes the
    record and invalidates [i]; the iterator that [erase] returns is
    dropped, so the next test [i != m_neighborList.end ()] uses an invalid
    iterator.  One unit of fuel is spent per iteration. *)
Fixpoint UnregisterOffNeighbors_loop (fuel : nat) (i : iterator)
    (m_neighborList : NeighborHandlerList)
    : option (outcome NeighborHandlerList) :=
  match fuel with
  | O => None
  | S fuel' =>
      match i with
      | Invalidated => Some Fault
      | At pos =>
          if Nat.eqb pos (length m_neighborList)
          then Some (Returns m_neighborList)
          else
            match m_neighborList !! pos with
            | None => Some Fault
            | Some r =>
                if Bool.eqb (around r) false
                then UnregisterOffNeighbors_loop fuel' Invalidated
                       (delete pos m_neighborList)
                else UnregisterOffNeighbors_loop fuel' (At (S pos))
                       m_neighborList
            end
      end
  end.

Definition UnregisterOffNeighbors (m_neighborList : NeighborHandlerList)
    : option (outcome NeighborHandlerList) :=
  UnregisterOffNeighbors_loop (S (length m_neighborList)) (At 0)
    m_neighborList.

(** [Node::TurnNeighborOn]: set [around] on the first match, then [break]. *)
Fixpoint TurnNeighborOn (ip0 : Address) (m_neighborList : NeighborHandlerList)
    : NeighborHandlerList :=
  match m_neighborList with
  | [] => []
  | i :: rest =>
      if decide (ip i = ip0) then set_around true i :: rest
      else i :: TurnNeighborOn ip0 rest
  end.

(** [TurnNeighborOn] called for each address of [confirmed], in order. *)
Definition TurnNeighborsOn (confirmed : list Address)
    (m_neighborList : NeighborHandlerList) : NeighborHandlerList :=
  foldl (fun l a => TurnNeighborOn a l) m_neighborList confirmed.

(** [Node::IsThereAnyNeighbor]. *)
Definition IsThereAnyNeighbor (m_neighborList : NeighborHandlerList) : bool :=
  negb (vector_empty m_neighborList).

(** The search loop shared by the four lookups: it leaves the iterator on
    the first record whose address is [ip0], or on [end ()]. *)
Fixpoint seek (ip0 : Address) (rest : NeighborHandlerList) (i : nat) : nat :=
  match rest with
  | [] => i
  | r :: rest' => if decide (ip r = ip0) then i else seek ip0 rest' (S i)
  end.

(** [Node::IsAliveNeighbor]: [return i->around]. *)
Definition IsAliveNeighbor (ip0 : Address)
    (m_neighborList : NeighborHandlerList) : outcome bool :=
  outcome_map around (deref m_neighborList (seek ip0 m_neighborList 0)).

(** [Node::GetNeighborTrust]. *)
Definition GetNeighborTrust (ip0 : Address)
    (m_neighborList : NeighborHandlerList) : outcome double :=
  outcome_map trust (deref m_neighborList (seek ip0 m_neighborList 0)).

(** [Node::GetNeighborCompetence]. *)
Definition GetNeighborCompetence (ip0 : Address)
    (m_neighborList : NeighborHandlerList) : outcome string :=
  outcome_map competence (deref m_neighborList (seek ip0 m_neighborList 0)).

(** [Node::GetNeighborInterests]. *)
Definition GetNeighborInterests (ip0 : Address)
    (m_neighborList : NeighborHandlerList) : outcome (list string) :=
  outcome_map interests (deref m_neighborList (seek ip0 m_neighborList 0)).

(** [Node::GetNNeighbors]. *)
Definition GetNNeighbors (m_neighborList : NeighborHandlerList) : Z :=
  to_int (Z.of_nat (length m_neighborList)).

(** *** [Node::GetPlusTrustNeighbor] *)

(** The locals [trust], [gotTrust] and the iterator [n]; [n] is declared
    without a value, which is [None] here. *)
Record selection : Type := mkSelection {
  sel_trust : double;
  gotTrust : bool;
  sel_n : option nat
}.

(** The inner loop over the directory for the label [competences[i]];
    [it] is the position of the head of [rest]. *)
Fixpoint scan_neighbors (label : string) (rest : NeighborHandlerList)
    (it : nat) (st : selection) : selection :=
  match rest with
  | [] => st
  | r :: rest' =>
      scan_neighbors label rest' (S it)
        (if String.eqb (competence r) label
         then if d_gt (trust r) (sel_trust st)
              then mkSelection (trust r) true (Some it)
              else st
         else st)
  end.

(** How the outer loop was left. *)
Inductive loop_exit : Type :=
  | ByBreak        (* [if (gotTrust) break;] *)
  | ByExhaustion   (* [i != competences.size ()] became false *)
  | BadIndex.      (* [competences[i]] outside the vector *)

(** The outer loop, [for (uint8_t i = 0; i != competences.size (); i++)].
    One unit of fuel is spent per iteration; [None] is "still running". *)
Fixpoint tier_loop (fuel : nat) (competences : list string)
    (m_neighborList : NeighborHandlerList) (i : Z) (st : selection)
    : option (loop_exit * selection) :=
  match fuel with
  | O => None
  | S fuel' =>
      if Z.eqb i (Z.of_nat (length competences)) then Some (ByExhaustion, st)
      else
        match competences !! Z.to_nat i with
        | None => Some (BadIndex, st)
        | Some label =>
            let st' := scan_neighbors label m_neighborList 0 st in
            if gotTrust st' then Some (ByBreak, st')
            else tier_loop fuel' competences m_neighborList (uint8_incr i) st'
        end
  end.

(** The locals on entry: [trust = 0.0], [gotTrust = false], [n] unset. *)
Definition selection_init : selection := mkSelection d_zero false None.

(** [return n->ip;] *)
Definition GetPlusTrustNeighbor (fuel : nat) (competences : list string)
    (m_neighborList : NeighborHandlerList) : option (outcome Address) :=
  match tier_loop fuel competences m_neighborList 0 selection_init with
  | None => None
  | Some (BadIndex, _) => Some Fault
  | Some (_, st) =>
      Some (match sel_n st with
            | None => Fault
            | Some n => outcome_map ip (deref m_neighborList n)
            end)
  end.

(** *** Specification vocabulary for the directory *)

(** The label has a record with trust strictly greater than 0. *)
Definition qualifies (label : string) (l : NeighborHandlerList) : Prop :=
  exists r, r ∈ l /\ competence r = label /\ d_gt (trust r) d_zero = true.

(** [label], at position [k] of the list, is the first qualifying label. *)
Definition first_qualifying (competences : list string)
    (l : NeighborHandlerList) (k : nat) (label : string) : Prop :=
  competences !! k = Some label /\ qualifies label l /\
  forall j lab, (j < k)%nat -> competences !! j = Some lab -> ~ qualifies lab l.

(** The record [r], at position [p], has the maximum trust among the
    records of competence [label]: none of them is greater, and every
    earlier one is strictly smaller (or is a NaN, which is never chosen). *)
Definition best_of_tier (label : string) (l : NeighborHandlerList)
    (p : nat) (r : Neighbor) : Prop :=
  l !! p = Some r /\ competence r = label /\
  (forall q, q ∈ l -> competence q = label -> d_gt (trust q) (trust r) = false) /\
  (forall p' q, (p' < p)%nat -> l !! p' = Some q -> competence q = label ->
     d_gt (trust r) (trust q) = true \/ d_is_nan (trust q) = true).

(** What the inner loop of [GetPlusTrustNeighbor] maintains once the
    positions below [it] have been examined for [label]: the running
    [trust] is a number that no examined record of the tier exceeds; it is
    still [0.0] while nothing has been selected; and the selected record is
    a record of the tier, above 0, strictly above every earlier one. *)
Definition scan_inv (label : string) (l : NeighborHandlerList) (it : nat)
    (st : selection) : Prop :=
  d_is_nan (sel_trust st) = false /\
  (forall p' q, (p' < it)%nat -> l !! p' = Some q -> competence q = label ->
     d_gt (trust q) (sel_trust st) = false) /\
  (gotTrust st = false -> sel_trust st = d_zero) /\
  (gotTrust st = true ->
     exists p r, sel_n st = Some p /\ (p < it)%nat /\ l !! p = Some r /\
       competence r = label /\ trust r = sel_trust st /\
       d_gt (trust r) d_zero = true /\
       forall p' q, (p' < p)%nat -> l !! p' = Some q -> competence q = label ->
         d_gt (trust r) (trust q) = true \/ d_is_nan (trust q) = true).

(** [r], at position [p], is the first record whose address is [ip0]. *)
Definition first_record (ip0 : Address) (l : NeighborHandlerList)
    (p : nat) (r : Neighbor) : Prop :=
  l !! p = Some r /\ ip r = ip0 /\
  forall p' q, (p' < p)%nat -> l !! p' = Some q -> ip q <> ip0.

(** The first record of the address, if there is one. *)
Fixpoint first_of (ip0 : Address) (l : NeighborHandlerList) : option Neighbor :=
  match l with
  | [] => None
  | r :: rest => if decide (ip r = ip0) then Some r else first_of ip0 rest
  end.

(** The directory states that calls to the five mutators can produce. *)
Inductive reachable : NeighborHandlerList -> Prop :=
  | reach_init : reachable []
  | reach_register ip0 c ints t l :
      reachable l -> reachable (RegisterNeighbor ip0 c ints t l)
  | reach_unregister ip0 l :
      reachable l -> reachable (UnregisterNeighbor ip0 l)
  | reach_turn_off l :
      reachable l -> reachable (TurnOffLiveNeighbors l)
  | reach_unregister_off l l' :
      reachable l -> UnregisterOffNeighbors l = Some (Returns l') ->
      reachable l'
  | reach_turn_on ip0 l :
      reachable l -> reachable (TurnNeighborOn ip0 l).

(** The same, when the caller registers an address only after
    [IsAlreadyNeighbor] has answered [false] for it. *)
Inductive reachable_guarded : NeighborHandlerList -> Prop :=
  | guard_init : reachable_guarded []
  | guard_register ip0 c ints t l :
      reachable_guarded l -> IsAlreadyNeighbor ip0 l = false ->
      reachable_guarded (RegisterNeighbor ip0 c ints t l)
  | guard_unregister ip0 l :
      reachable_guarded l -> reachable_guarded (UnregisterNeighbor ip0 l)
  | guard_turn_off l :
      reachable_guarded l -> reachable_guarded (TurnOffLiveNeighbors l)
  | guard_unregister_off l l' :
      reachable_guarded l -> UnregisterOffNeighbors l = Some (Returns l') ->
      reachable_guarded l'
  | guard_turn_on ip0 l :
      reachable_guarded l -> reachable_guarded (TurnNeighborOn ip0 l).

End Directory.

Arguments Neighbor Address : clear implicits.
Abbreviation NeighborHandlerList Address := (list (Neighbor Address)).

End Neighbors.

(** ** Protocol handler registry *)

Module Handlers.

Section Registry.

Context {NetDevice Packet Address PacketType ProtocolHandler : Type}.
Context `{EqDecision NetDevice} `{EqDecision ProtocolHandler}.

(** [Ptr<T>]: [None] is the null pointer, written [0] in the source. *)
Definition Ptr (T : Type) : Type := option T.

Definition is_null {T : Type} (p : Ptr T) : bool :=
  match p with
  | None => true
  | Some _ => false
  end.

Record ProtocolHandlerEntry : Type := mkEntry {
  handler : ProtocolHandler;
  device : Ptr NetDevice;
  protocol : Z;
  promiscuous : bool
}.

(** [typedef std::vector<struct Node::ProtocolHandlerEntry> ProtocolHandlerList]. *)
Local Abbreviation ProtocolHandlerList := (list ProtocolHandlerEntry).

(** One call [handler (device, packet, protocol, from, to, packetType)]. *)
Record invocation : Type := mkInvocation {
  inv_handler : ProtocolHandler;
  inv_device : Ptr NetDevice;
  inv_packet : Packet;
  inv_protocol : Z;
  inv_from : Address;
  inv_to : Address;
  inv_packetType : PacketType
}.

(** The part of a node the registry touches: its devices, its handlers,
    and the devices on which [SetPromiscReceiveCallback] has been called
    for this node. *)
Record Node : Type := mkNode {
  m_devices : list NetDevice;
  m_handlers : ProtocolHandlerList;
  promisc_callbacks : list NetDevice
}.

(** [Node::RegisterProtocolHandler]. *)
Definition RegisterProtocolHandler (handler0 : ProtocolHandler)
    (protocolType : Z) (device0 : Ptr NetDevice) (promiscuous0 : bool)
    (node : Node) : Node :=
  let entry := mkEntry handler0 device0 protocolType promiscuous0 in
  let callbacks :=
    if promiscuous0
    then match device0 with
         | None => promisc_callbacks node ++ m_devices node
         | Some dev => promisc_callbacks node ++ [dev]
         end
    else promisc_callbacks node in
  mkNode (m_devices node) (m_handlers node ++ [entry]) callbacks.

(** The erase-and-break loop of [Node::UnregisterProtocolHandler];
    [IsEqual] on callbacks is identity of the handler. *)
Fixpoint erase_handler (handler0 : ProtocolHandler) (rest : ProtocolHandlerList)
    : ProtocolHandlerList :=
  match rest with
  | [] => []
  | i :: rest' =>
      if decide (handler i = handler0) then rest'
      else i :: erase_handler handler0 rest'
  end.

(** [Node::UnregisterProtocolHandler]. *)
Definition UnregisterProtocolHandler (handler0 : ProtocolHandler) (node : Node)
    : Node :=
  mkNode (m_devices node) (erase_handler handler0 (m_handlers node))
         (promisc_callbacks node).

(** The loop of [Node::ReceiveFromDevice]; [calls] collects the handler
    invocations in the order they are made. *)
Fixpoint ReceiveFromDevice_loop (device0 : Ptr NetDevice) (packet : Packet)
    (protocol0 : Z) (from to : Address) (packetType : PacketType)
    (promiscuous0 : bool) (rest : ProtocolHandlerList)
    (found : bool) (calls : list invocation) : bool * list invocation :=
  match rest with
  | [] => (found, calls)
  | i :: rest' =>
      let invoked :=
        (true, calls ++ [mkInvocation (handler i) device0 packet protocol0
                                      from to packetType]) in
      let '(found', calls') :=
        if is_null (device i)
           || (negb (is_null (device i)) && bool_decide (device i = device0))
        then
          if (protocol i =? 0) || (protocol i =? protocol0)
          then
            if Bool.eqb promiscuous0 (promiscuous i) then invoked
            else (found, calls)
          else (found, calls)
        else (found, calls) in
      ReceiveFromDevice_loop device0 packet protocol0 from to packetType
        promiscuous0 rest' found' calls'
  end.

(** [Node::ReceiveFromDevice]: the returned [found] and the invocations. *)
Definition ReceiveFromDevice (device0 : Ptr NetDevice) (packet : Packet)
    (protocol0 : Z) (from to : Address) (packetType : PacketType)
    (promiscuous0 : bool) (node : Node) : bool * list invocation :=
  ReceiveFromDevice_loop device0 packet protocol0 from to packetType
    promiscuous0 (m_handlers node) false [].

(** [Node::PromiscReceiveFromDevice]. *)
Definition PromiscReceiveFromDevice (device0 : Ptr NetDevice) (packet : Packet)
    (protocol0 : Z) (from to : Address) (packetType : PacketType)
    (node : Node) : bool * list invocation :=
  ReceiveFromDevice device0 packet protocol0 from to packetType true node.

(** [NetDevice::GetAddress] and the value [NetDevice::PacketType (0)], from
    the host simulator. *)
Context (GetAddress : NetDevice -> Address) (PacketType_0 : PacketType).

(** [Node::NonPromiscReceiveFromDevice]: the receiver is
    [device->GetAddress ()], which needs a device. *)
Definition NonPromiscReceiveFromDevice (device0 : Ptr NetDevice)
    (packet : Packet) (protocol0 : Z) (from : Address) (node : Node)
    : outcome (bool * list invocation) :=
  match device0 with
  | None => Fault
  | Some dev =>
      Returns (ReceiveFromDevice device0 packet protocol0 from
                 (GetAddress dev) PacketType_0 false node)
  end.

(** *** Specification vocabulary for the registry *)

(** The entry's three filters accept a frame of [protocol0] received on
    [device0] in the mode [promiscuous0]. *)
Definition entry_matches (device0 : Ptr NetDevice) (protocol0 : Z)
    (promiscuous0 : bool) (e : ProtocolHandlerEntry) : Prop :=
  (device e = None \/ device e = device0) /\
  (protocol e = 0 \/ protocol e = protocol0) /\
  promiscuous e = promiscuous0.

(** The invocation a dispatch makes of the handler of [e]. *)
Definition invocation_of (device0 : Ptr NetDevice) (packet : Packet)
    (protocol0 : Z) (from to : Address) (packetType : PacketType)
    (e : ProtocolHandlerEntry) : invocation :=
  mkInvocation (handler e) device0 packet protocol0 from to packetType.

#[export] Instance entry_matches_dec device0 protocol0 promiscuous0 e :
  Decision (entry_matches device0 protocol0 promiscuous0 e).
Proof. unfold entry_matches. apply _. Defined.

(** A call of the registration interface. *)
Inductive registry_call : Type :=
  | CallRegister (handler0 : ProtocolHandler) (protocolType : Z)
                 (device0 : Ptr NetDevice) (promiscuous0 : bool)
  | CallUnregister (handler0 : ProtocolHandler).

Definition do_call (node : Node) (c : registry_call) : Node :=
  match c with
  | CallRegister h p d m => RegisterProtocolHandler h p d m node
  | CallUnregister h => UnregisterProtocolHandler h node
  end.

(** The node after the calls, oldest first. *)
Definition after_calls (calls : list registry_call) (node : Node) : Node :=
  foldl do_call node calls.

(** The entries the calls registered, in registration order. *)
Fixpoint registered (calls : list registry_call) : ProtocolHandlerList :=
  match calls with
  | [] => []
  | CallRegister h p d m :: calls' => mkEntry h d p m :: registered calls'
  | CallUnregister _ :: calls' => registered calls'
  end.

(** A node with the given devices and no handler yet. *)
Definition fresh_node (devices : list NetDevice) : Node :=
  mkNode devices [] [].

End Registry.

Arguments ProtocolHandlerEntry NetDevice ProtocolHandler : clear implicits.
Abbreviation ProtocolHandlerList NetDevice ProtocolHandler :=
  (list (ProtocolHandlerEntry NetDevice ProtocolHandler)).
Arguments invocation NetDevice Packet Address PacketType ProtocolHandler
  : clear implicits.
Arguments Node NetDevice ProtocolHandler : clear implicits.
Arguments registry_call NetDevice ProtocolHandler : clear implicits.

End Handlers.

(** ** Attending queue *)

Module Attendings.

Section Queue.

Context {Address : Type} `{EqDecision Address}.

Record Attending : Type := mkAttending {
  ip : Address;
  criticalData : string;
  attendingTime : double;
  attendingPriority : Z
}.

(** [typedef std::vector<struct Node::Attending> AttendingHandlerList]. *)
Local Abbreviation AttendingHandlerList := (list Attending).

(** [Node::RegisterAttendingCall]. *)
Definition RegisterAttendingCall (ip0 : Address) (criticalData0 : string)
    (priority : Z) (attendingCallTime : double)
    (m_attendingList : AttendingHandlerList) : AttendingHandlerList :=
  m_attendingList ++ [mkAttending ip0 criticalData0 attendingCallTime priority].

(** [Node::GetNPendingAttending]: [(int) m_attendingList.size ()]. *)
Definition GetNPendingAttending (m_attendingList : AttendingHandlerList) : Z :=
  to_int (Z.of_nat (length m_attendingList)).

(** The erase-and-break loop of [Node::CloseAttending]. *)
Fixpoint erase_first (ip0 : Address) (rest : AttendingHandlerList)
    : AttendingHandlerList :=
  match rest with
  | [] => []
  | i :: rest' =>
      if decide (ip i = ip0) then rest' else i :: erase_first ip0 rest'
  end.

(** [Node::CloseAttending]. *)
Definition CloseAttending (ip0 : Address)
    (m_attendingList : AttendingHandlerList) : AttendingHandlerList :=
  if negb (GetNPendingAttending m_attendingList =? 0)
  then erase_first ip0 m_attendingList
  else m_attendingList.

(** [Node::GetAttendingIpList]. *)
Fixpoint GetAttendingIpList_loop (rest : AttendingHandlerList)
    (AttendingIpList : list Address) : list Address :=
  match rest with
  | [] => AttendingIpList
  | i :: rest' => GetAttendingIpList_loop rest' (AttendingIpList ++ [ip i])
  end.

Definition GetAttendingIpList (m_attendingList : AttendingHandlerList)
    : list Address :=
  GetAttendingIpList_loop m_attendingList [].

(** The search loop of the two lookups: it leaves the iterator on the
    first record whose address is [ip0], or on [end ()]. *)
Fixpoint seek (ip0 : Address) (rest : AttendingHandlerList) (i : nat) : nat :=
  match rest with
  | [] => i
  | r :: rest' => if decide (ip r = ip0) then i else seek ip0 rest' (S i)
  end.

(** [Node::GetAttendingCriticalData]: [return i->criticalData]. *)
Definition GetAttendingCriticalData (ip0 : Address)
    (m_attendingList : AttendingHandlerList) : outcome string :=
  outcome_map criticalData
    (deref m_attendingList (seek ip0 m_attendingList 0)).

(** [Node::GetAttendingPriority]: [return i->attendingPriority]. *)
Definition GetAttendingPriority (ip0 : Address)
    (m_attendingList : AttendingHandlerList) : outcome Z :=
  outcome_map attendingPriority
    (deref m_attendingList (seek ip0 m_attendingList 0)).

(** [r], at position [p], is the first record whose address is [ip0]. *)
Definition first_attending (ip0 : Address) (l : AttendingHandlerList)
    (p : nat) (r : Attending) : Prop :=
  l !! p = Some r /\ ip r = ip0 /\
  forall p' q, (p' < p)%nat -> l !! p' = Some q -> ip q <> ip0.

(** The first record of the address, if there is one. *)
Fixpoint first_of (ip0 : Address) (l : AttendingHandlerList) : option Attending :=
  match l with
  | [] => None
  | r :: rest => if decide (ip r = ip0) then Some r else first_of ip0 rest
  end.

End Queue.

Arguments Attending Address : clear implicits.
Abbreviation AttendingHandlerList Address := (list (Attending Address)).

End Attendings.

(** ** Device list and device addition listeners *)

Module Devices.

Section DeviceList.

Context {NetDevice DeviceAdditionListener : Type}.
Context `{EqDecision DeviceAdditionListener}.

(** What [AddDevice] and the listener functions do outside the node, in
    the order they do it. *)
Inductive effect : Type :=
  | SetNode (dev : NetDevice)
  | SetIfIndex (dev : NetDevice) (index : Z)
  | SetReceiveCallback (dev : NetDevice)
  | ScheduleInitialize (dev : NetDevice)
  | ListenerCall (listener : DeviceAdditionListener) (dev : NetDevice).

Record Node : Type := mkNode {
  m_devices : list NetDevice;
  m_deviceAdditionListeners : list DeviceAdditionListener;
  effects : list effect
}.

(** The loop of [Node::NotifyDeviceAdded]. *)
Fixpoint NotifyDeviceAdded_loop (device : NetDevice)
    (rest : list DeviceAdditionListener) (done : list effect) : list effect :=
  match rest with
  | [] => done
  | i :: rest' =>
      NotifyDeviceAdded_loop device rest' (done ++ [ListenerCall i device])
  end.

(** [Node::NotifyDeviceAdded]. *)
Definition NotifyDeviceAdded (device : NetDevice) (node : Node) : Node :=
  mkNode (m_devices node) (m_deviceAdditionListeners node)
    (NotifyDeviceAdded_loop device (m_deviceAdditionListeners node)
       (effects node)).

(** [Node::AddDevice] for a device that is not null. *)
Definition AddDevice_at (dev : NetDevice) (node : Node) : Z * Node :=
  let index := to_uint32 (Z.of_nat (length (m_devices node))) in
  (index,
   NotifyDeviceAdded dev
     (mkNode (m_devices node ++ [dev]) (m_deviceAdditionListeners node)
        (effects node ++ [SetNode dev; SetIfIndex dev index;
                          SetReceiveCallback dev; ScheduleInitialize dev]))).

(** [Node::AddDevice]: [device->SetNode (this)] needs a device. *)
Definition AddDevice (device : option NetDevice) (node : Node)
    : outcome (Z * Node) :=
  match device with
  | None => Fault
  | Some dev => Returns (AddDevice_at dev node)
  end.

(** [Node::GetDevice]: [m_devices[index]], [index] a [uint32_t]. *)
Definition GetDevice (index : Z) (node : Node) : outcome NetDevice :=
  deref (m_devices node) (Z.to_nat (to_uint32 index)).

(** [Node::GetNDevices]. *)
Definition GetNDevices (node : Node) : Z :=
  to_uint32 (Z.of_nat (length (m_devices node))).

(** The loop of [Node::RegisterDeviceAdditionListener] over the devices. *)
Fixpoint notify_existing (listener : DeviceAdditionListener)
    (rest : list NetDevice) (done : list effect) : list effect :=
  match rest with
  | [] => done
  | i :: rest' => notify_existing listener rest' (done ++ [ListenerCall listener i])
  end.

(** [Node::RegisterDeviceAdditionListener]. *)
Definition RegisterDeviceAdditionListener (listener : DeviceAdditionListener)
    (node : Node) : Node :=
  mkNode (m_devices node) (m_deviceAdditionListeners node ++ [listener])
    (notify_existing listener (m_devices node) (effects node)).

(** The erase-and-break loop of [Node::UnregisterDeviceAdditionListener]. *)
Fixpoint erase_listener (listener : DeviceAdditionListener)
    (rest : list DeviceAdditionListener) : list DeviceAdditionListener :=
  match rest with
  | [] => []
  | i :: rest' =>
      if decide (i = listener) then rest' else i :: erase_listener listener rest'
  end.

(** [Node::UnregisterDeviceAdditionListener]. *)
Definition UnregisterDeviceAdditionListener (listener : DeviceAdditionListener)
    (node : Node) : Node :=
  mkNode (m_devices node)
    (erase_listener listener (m_deviceAdditionListeners node)) (effects node).

(** *** Specification vocabulary for the device list *)

(** The devices a listener has been called with, oldest call first. *)
Fixpoint notifications (listener : DeviceAdditionListener) (es : list effect)
    : list NetDevice :=
  match es with
  | [] => []
  | ListenerCall l dev :: es' =>
      if decide (l = listener) then dev :: notifications listener es'
      else notifications listener es'
  | _ :: es' => notifications listener es'
  end.

(** A call of the device interface. *)
Inductive device_call : Type :=
  | CallAddDevice (dev : NetDevice)
  | CallRegisterListener (listener : DeviceAdditionListener)
  | CallUnregisterListener (listener : DeviceAdditionListener).

Definition do_call (node : Node) (c : device_call) : Node :=
  match c with
  | CallAddDevice dev => (AddDevice_at dev node).2
  | CallRegisterListener listener => RegisterDeviceAdditionListener listener node
  | CallUnregisterListener listener =>
      UnregisterDeviceAdditionListener listener node
  end.

(** The node after the calls, oldest first. *)
Definition after_calls (calls : list device_call) (node : Node) : Node :=
  foldl do_call node calls.

(** How many times the calls register [listener]. *)
Fixpoint registered_times (listener : DeviceAdditionListener)
    (calls : list device_call) : nat :=
  match calls with
  | [] => 0
  | CallRegisterListener l :: calls' =>
      if decide (l = listener) then S (registered_times listener calls')
      else registered_times listener calls'
  | _ :: calls' => registered_times listener calls'
  end.

(** A node without devices, listeners or past effects. *)
Definition fresh_node : Node := mkNode [] [] [].

End DeviceList.

Arguments effect NetDevice DeviceAdditionListener : clear implicits.
Arguments Node NetDevice DeviceAdditionListener : clear implicits.
Arguments device_call NetDevice DeviceAdditionListener : clear implicits.

End Devices.

(** ** The node's own attributes *)

Module Profile.

Record Node : Type := mkNode {
  m_status : bool;
  m_competence : string;
  m_interests : list string;
  m_servicestatus : bool;
  m_servicepriority : Z
}.

(** [Node::GetStatus]. *)
Definition GetStatus (node : Node) : bool := m_status node.

(** [Node::GetCompetence]. *)
Definition GetCompetence (node : Node) : string := m_competence node.

(** [Node::SetCompetence]. *)
Definition SetCompetence (competence : string) (node : Node) : Node :=
  mkNode (m_status node) competence (m_interests node)
    (m_servicestatus node) (m_servicepriority node).

(** [Node::HasEqualCompetence]. *)
Definition HasEqualCompetence (competence : string) (node : Node) : bool :=
  if string_compare (m_competence node) competence =? 0 then true else false.

(** [Node::SetInterests]. *)
Definition SetInterests (interests : list string) (node : Node) : Node :=
  mkNode (m_status node) (m_competence node) interests
    (m_servicestatus node) (m_servicepriority node).

(** [Node::GetInterests]. *)
Definition GetInterests (node : Node) : list string := m_interests node.

(** [Node::GetServiceStatus]. *)
Definition GetServiceStatus (node : Node) : bool := m_servicestatus node.

(** [Node::GetServicePriority]. *)
Definition GetServicePriority (node : Node) : Z := m_servicepriority node.

(** [!s.compare (t)]: the [int] is converted to [bool] and negated. *)
Definition not_compare (s t : string) : bool := string_compare s t =? 0.

(** [Node::GetCriticalInfo]. *)
Definition GetCriticalInfo (competence : string) : string :=
  if not_compare competence "doctor" then "InfoA"
  else if not_compare competence "nurse" then "InfoB"
  else if not_compare competence "caregiver" then "InfoC"
  else "InfoD".

End Profile.

(** ** Sample data *)

(** The directory {(1, nurse, 0.9), (2, doctor, 0.2)}. *)
Definition nurse_and_doctor : Neighbors.NeighborHandlerList nat :=
  Neighbors.RegisterNeighbor 2%nat "doctor" [] d_0_2
    (Neighbors.RegisterNeighbor 1%nat "nurse" ["vitals"%string] d_0_9 []).

(** 256 labels that no record carries, then [doctor]. *)
Definition long_list : list string := replicate 256 "x"%string ++ ["doctor"%string].

Definition one_doctor : Neighbors.NeighborHandlerList nat :=
  [Neighbors.mkNeighbor 1%nat "doctor" [] d_1_0 true].

(** A queue of 2^31 - 1 attending calls. *)
Definition full_queue : Attendings.AttendingHandlerList nat :=
  replicate (Z.to_nat INT_MAX) (Attendings.mkAttending 1%nat "InfoA" d_zero 1).

Definition one_call : Attendings.AttendingHandlerList nat :=
  Attendings.RegisterAttendingCall 1%nat "InfoA" 1 d_zero [].

(** A node with one device and three handlers: for IPv4 (0x0800) on any
    device, for any protocol on device 7 in promiscuous mode, and for ARP
    (0x0806) on device 7. *)
Definition three_handlers : Handlers.Node nat nat :=
  Handlers.after_calls
    [Handlers.CallRegister 1%nat 2048 None false;
     Handlers.CallRegister 2%nat 0 (Some 7%nat) true;
     Handlers.CallRegister 3%nat 2054 (Some 7%nat) false;
     Handlers.CallRegister 4%nat 0 None false]
    (Handlers.fresh_node [7%nat]).

(** Listener 1, device 7, listener 2, device 8, in that order. *)
Definition sample_device_calls : list (Devices.device_call nat nat) :=
  [Devices.CallRegisterListener 1%nat; Devices.CallAddDevice 7%nat;
   Devices.CallRegisterListener 2%nat; Devices.CallAddDevice 8%nat].

Definition two_devices : Devices.Node nat nat :=
  Devices.after_calls sample_device_calls Devices.fresh_node.

(** * Properties *)

(** ** The order on doubles *)

Ltac float_order :=
  unfold d_gt, SFltb, SFcompare;
  repeat match goal with
  | |- context [Z.compare ?a ?b] => destruct (Z.compare_spec a b)
  | |- context [Pos.compare_cont Eq ?a ?b] =>
      change (Pos.compare_cont Eq a b) with (Pos.compare a b);
      destruct (Pos.compare_spec a b)
  end;
  simpl; intros; subst; try discriminate; try reflexivity; try lia.

Lemma d_gt_not_nan (a b : double) :
  d_gt a b = true -> d_is_nan a = false /\ d_is_nan b = false.
Proof. destruct a, b; simpl; try discriminate; auto. Qed.

Lemma d_gt_irrefl (a : double) : d_gt a a = false.
Proof. destruct a as [[]|[]| |[] m e]; float_order. Qed.

Lemma d_gt_trans (a b c : double) :
  d_gt a b = true -> d_gt b c = true -> d_gt a c = true.
Proof.
  destruct a as [[]|[]| |[] ma ea], b as [[]|[]| |[] mb eb],
    c as [[]|[]| |[] mc ec]; float_order.
Qed.

(** [y <= b < r] gives [y < r], for [y] not a NaN. *)
Lemma d_gt_le_lt (y b r : double) :
  d_is_nan y = false -> d_gt y b = false -> d_gt r b = true -> d_gt r y = true.
Proof.
  destruct y as [[]|[]| |[] my ey], b as [[]|[]| |[] mb eb],
    r as [[]|[]| |[] mr er]; float_order.
Qed.

(** Nothing that is not above [b] is above an [r] that is above [b]. *)
Lemma d_gt_not_above (y b r : double) :
  d_gt y b = false -> d_gt r b = true -> d_gt y r = false.
Proof.
  intros Hyb Hrb. destruct (d_gt y r) eqn:Hyr; [|reflexivity].
  rewrite (d_gt_trans y r b Hyr Hrb) in Hyb. discriminate.
Qed.

(** ** The fixed-width conversions *)

Lemma to_int_small (x : Z) : 0 <= x <= INT_MAX -> to_int x = x.
Proof.
  unfold to_int, INT_MAX. intros Hx.
  rewrite Z.mod_small by lia. lia.
Qed.

Lemma uint8_incr_small (j : nat) :
  (S j < 256)%nat -> uint8_incr (Z.of_nat j) = Z.of_nat (S j).
Proof.
  intros Hj. unfold uint8_incr. rewrite Z.mod_small by lia. lia.
Qed.

Lemma uint8_incr_range (i : Z) : 0 <= uint8_incr i < 256.
Proof. unfold uint8_incr. apply Z.mod_pos_bound. lia. Qed.

(** ** Neighbor directory *)

Section NeighborFacts.

Import Neighbors.

Context {Address : Type} `{EqDecision Address}.

Implicit Types (l : NeighborHandlerList Address) (r q : Neighbor Address).
Implicit Types (label : string) (st : selection).

Lemma GetNeighborIpList_loop_app l (acc : list Address) :
  GetNeighborIpList_loop l acc = acc ++ (ip <$> l).
Proof.
  revert acc. induction l as [|r l IH]; intros acc; simpl.
  - by rewrite app_nil_r.
  - rewrite IH. by rewrite <- app_assoc.
Qed.

Lemma GetNeighborIpList_fmap l : GetNeighborIpList l = ip <$> l.
Proof. unfold GetNeighborIpList. by rewrite GetNeighborIpList_loop_app. Qed.

Lemma IsAlreadyNeighbor_loop_spec (ip0 : Address) l :
  IsAlreadyNeighbor_loop ip0 l false = true <-> ip0 ∈ (ip <$> l).
Proof.
  induction l as [|r l IH]; simpl.
  - split; [discriminate | intros Hin; by apply elem_of_nil in Hin].
  - destruct (decide (ip r = ip0)) as [<-|Hne].
    + split; [intros _; apply list_elem_of_here | done].
    + rewrite IH, elem_of_cons. split; [by right | intros [Heq|Hin]; [congruence | done]].
Qed.

Lemma IsAlreadyNeighbor_true (ip0 : Address) l :
  IsAlreadyNeighbor ip0 l = true <-> ip0 ∈ (ip <$> l).
Proof. apply IsAlreadyNeighbor_loop_spec. Qed.

Lemma IsAlreadyNeighbor_false (ip0 : Address) l :
  IsAlreadyNeighbor ip0 l = false <-> ip0 ∉ (ip <$> l).
Proof.
  rewrite <- IsAlreadyNeighbor_true. destruct (IsAlreadyNeighbor ip0 l); naive_solver.
Qed.

(** Where [seek] stops. *)
Lemma seek_absent (ip0 : Address) l (i : nat) :
  ip0 ∉ (ip <$> l) -> seek ip0 l i = (i + length l)%nat.
Proof.
  revert i. induction l as [|r l IH]; intros i Hnot; simpl.
  - lia.
  - rewrite fmap_cons, not_elem_of_cons in Hnot. destruct Hnot as [Hne Hnot].
    destruct (decide (ip r = ip0)); [congruence|].
    rewrite IH by done. lia.
Qed.

Lemma seek_present (ip0 : Address) l (i : nat) :
  ip0 ∈ (ip <$> l) ->
  exists p r, seek ip0 l i = (i + p)%nat /\ first_record ip0 l p r.
Proof.
  revert i. induction l as [|r l IH]; intros i Hin; simpl.
  - by apply elem_of_nil in Hin.
  - destruct (decide (ip r = ip0)) as [Heq|Hne].
    + exists 0%nat, r. split; [lia|]. repeat split; [done|].
      intros p' q Hlt. lia.
    + rewrite fmap_cons, elem_of_cons in Hin.
      destruct Hin as [Heq|Hin]; [congruence|].
      destruct (IH (S i) Hin) as (p & r' & Hseek & Hp & Hip & Hfirst).
      exists (S p), r'. split; [lia|]. repeat split; [done..|].
      intros [|p'] q Hlt Hq; simpl in Hq.
      * congruence.
      * apply (Hfirst p' q); [lia | done].
Qed.

Lemma first_record_unique (ip0 : Address) l p r p' r' :
  first_record ip0 l p r -> first_record ip0 l p' r' -> p = p' /\ r = r'.
Proof.
  intros (Hp & Hip & Hfirst) (Hp' & Hip' & Hfirst').
  assert (p = p') as ->.
  { destruct (Nat.lt_trichotomy p p') as [Hlt|[Heq|Hgt]]; [|done|].
    - by destruct (Hfirst' p r Hlt Hp).
    - by destruct (Hfirst p' r' Hgt Hp'). }
  split; [done | congruence].
Qed.

(** The four lookups read the first record of the address. *)
Lemma lookups_first_record (ip0 : Address) l p r :
  first_record ip0 l p r ->
  IsAliveNeighbor ip0 l = Returns (around r) /\
  GetNeighborTrust ip0 l = Returns (trust r) /\
  GetNeighborCompetence ip0 l = Returns (competence r) /\
  GetNeighborInterests ip0 l = Returns (interests r).
Proof.
  intros Hfirst.
  assert (ip0 ∈ (ip <$> l)) as Hin.
  { destruct Hfirst as (Hp & Hip & _). rewrite list_elem_of_fmap.
    exists r. split; [done | by eapply list_elem_of_lookup_2]. }
  destruct (seek_present ip0 l 0 Hin) as (p' & r' & Hseek & Hfirst').
  destruct (first_record_unique _ _ _ _ _ _ Hfirst Hfirst') as [<- <-].
  unfold IsAliveNeighbor, GetNeighborTrust, GetNeighborCompetence,
    GetNeighborInterests, deref.
  rewrite Hseek, Nat.add_0_l. destruct Hfirst as (Hp & _). by rewrite Hp.
Qed.

(** *** Marking stale and confirming presence *)

Lemma TurnOffLiveNeighbors_fmap l :
  TurnOffLiveNeighbors l = set_around false <$> l.
Proof. induction l as [|r l IH]; simpl; [done | by rewrite IH]. Qed.

Lemma TurnOffLiveNeighbors_ips l : ip <$> TurnOffLiveNeighbors l = ip <$> l.
Proof.
  rewrite TurnOffLiveNeighbors_fmap, <- list_fmap_compose.
  by apply list_fmap_ext.
Qed.

Lemma TurnOffLiveNeighbors_first (x : Address) l p r :
  first_record x l p r ->
  first_record x (TurnOffLiveNeighbors l) p (set_around false r).
Proof.
  intros (Hp & Hip & Hfirst). rewrite TurnOffLiveNeighbors_fmap.
  repeat split.
  - by rewrite list_lookup_fmap, Hp.
  - done.
  - intros p' q Hlt Hq. rewrite list_lookup_fmap in Hq.
    destruct (l !! p') as [q'|] eqn:Hq'; simplify_eq/=.
    by apply (Hfirst p' q').
Qed.

Lemma TurnNeighborOn_ips (a : Address) l : ip <$> TurnNeighborOn a l = ip <$> l.
Proof.
  induction l as [|r l IH]; csimpl; [done|].
  destruct (decide (ip r = a)); csimpl; [done | by rewrite IH].
Qed.

Lemma TurnNeighborOn_first (a x : Address) l p r :
  first_record x l p r ->
  first_record x (TurnNeighborOn a l) p
    (if decide (a = x) then set_around true r else r).
Proof.
  revert p. induction l as [|r0 l IH]; intros p (Hp & Hip & Hfirst).
  - by rewrite lookup_nil in Hp.
  - simpl. destruct p as [|p]; simpl in Hp.
    + injection Hp as ->.
      destruct (decide (ip r = a)) as [Hra|Hra];
        destruct (decide (a = x)) as [Hax|Hax]; try congruence;
        (repeat split; [done..|]; intros p' q Hlt; lia).
    + assert (ip r0 <> x) as Hr0 by (apply (Hfirst 0%nat r0); [lia | done]).
      assert (first_record x l p r) as Hrec.
      { repeat split; [done..|]. intros p' q Hlt Hq.
        apply (Hfirst (S p') q); [lia | done]. }
      destruct (IH p Hrec) as (Hp' & Hip' & Hfirst').
      destruct (decide (ip r0 = a)) as [Hr0a|Hr0a].
      * destruct (decide (a = x)) as [Hax|Hax]; [congruence|].
        repeat split; [done..|]. intros [|p'] q Hlt Hq; simpl in Hq.
        -- injection Hq as <-. done.
        -- apply (Hfirst (S p') q); [lia | done].
      * repeat split; [done..|]. intros [|p'] q Hlt Hq; simpl in Hq.
        -- congruence.
        -- apply (Hfirst' p' q); [lia | done].
Qed.

Lemma TurnNeighborsOn_first (confirmed : list Address) (x : Address) l p r :
  first_record x l p r ->
  exists r', first_record x (TurnNeighborsOn confirmed l) p r' /\
             around r' = around r || bool_decide (x ∈ confirmed).
Proof.
  revert l r. induction confirmed as [|a confirmed IH]; intros l r Hrec.
  - exists r. split; [done|]. rewrite bool_decide_eq_false_2; [by rewrite orb_false_r|].
    apply not_elem_of_nil.
  - unfold TurnNeighborsOn. simpl.
    destruct (IH _ _ (TurnNeighborOn_first a x l p r Hrec)) as (r' & Hrec' & Har).
    exists r'. split; [done|]. rewrite Har.
    destruct (decide (a = x)) as [->|Hax]; simpl.
    + rewrite (bool_decide_eq_true_2 (x ∈ x :: confirmed)) by apply list_elem_of_here.
      by rewrite orb_true_r.
    + f_equal. apply bool_decide_ext. rewrite elem_of_cons.
      split; [by right | intros [Heq|Hin]; [congruence | done]].
Qed.

(** *** Removing *)

Lemma erase_first_absent (ip0 : Address) l :
  ip0 ∉ (ip <$> l) -> erase_first ip0 l = l.
Proof.
  induction l as [|r l IH]; csimpl; [done|].
  rewrite not_elem_of_cons. intros [Hne Hnot].
  destruct (decide (ip r = ip0)); [congruence|]. by rewrite IH.
Qed.

Lemma erase_first_sublist (ip0 : Address) l : erase_first ip0 l `sublist_of` l.
Proof.
  induction l as [|r l IH]; simpl; [done|].
  destruct (decide (ip r = ip0)).
  - by apply sublist_cons.
  - by apply sublist_skip.
Qed.

Lemma UnregisterNeighbor_sublist (ip0 : Address) l :
  UnregisterNeighbor ip0 l `sublist_of` l.
Proof.
  unfold UnregisterNeighbor.
  destruct (IsAlreadyNeighbor ip0 l); [apply erase_first_sublist | done].
Qed.

(** The loop of [UnregisterOffNeighbors], from any position it can be in:
    it returns the list as it is when the records from [pos] on are all
    around, and otherwise erases the first one that is not and then uses
    the invalidated iterator. *)
Lemma UnregisterOffNeighbors_loop_spec (fuel pos : nat) l :
  (pos <= length l)%nat -> (length l - pos < fuel)%nat ->
  UnregisterOffNeighbors_loop fuel (At pos) l =
    Some (if forallb around (drop pos l) then Returns l else Fault).
Proof.
  revert pos. induction fuel as [|fuel IH]; intros pos Hpos Hfuel; [lia|].
  simpl. destruct (Nat.eqb_spec pos (length l)) as [->|Hne].
  - by rewrite drop_all.
  - destruct (lookup_lt_is_Some_2 l pos) as [r Hr]; [lia|].
    rewrite Hr, (drop_S l r pos Hr). simpl.
    destruct (around r) eqn:Har; simpl.
    + apply IH; lia.
    + destruct fuel as [|fuel]; [lia | done].
Qed.

Lemma UnregisterOffNeighbors_spec l :
  UnregisterOffNeighbors l =
    Some (if forallb around l then Returns l else Fault).
Proof.
  unfold UnregisterOffNeighbors.
  rewrite UnregisterOffNeighbors_loop_spec by lia. done.
Qed.

Lemma UnregisterOffNeighbors_returns l (l' : NeighborHandlerList Address) :
  UnregisterOffNeighbors l = Some (Returns l') ->
  l' = l /\ forallb around l = true.
Proof.
  rewrite UnregisterOffNeighbors_spec.
  destruct (forallb around l); [|discriminate]. by intros [= <-].
Qed.

(** *** The selection of the most trusted neighbor *)

Lemma scan_neighbors_no_change label (rest : NeighborHandlerList Address)
    (it : nat) st :
  (forall r, r ∈ rest -> competence r = label ->
     d_gt (trust r) (sel_trust st) = false) ->
  scan_neighbors label rest it st = st.
Proof.
  revert it. induction rest as [|r rest IH]; intros it Hnone; simpl; [done|].
  destruct (String.eqb_spec (competence r) label) as [Hc|Hc].
  - rewrite (Hnone r) by (done || apply list_elem_of_here).
    apply IH. intros q Hq. apply Hnone. by apply list_elem_of_further.
  - apply IH. intros q Hq. apply Hnone. by apply list_elem_of_further.
Qed.

Lemma scan_inv_init label l : scan_inv label l 0 selection_init.
Proof.
  repeat split; simpl; try done.
  intros p' q Hlt. lia.
Qed.

(** One iteration of the inner loop keeps [scan_inv]. *)
Lemma scan_inv_step label l (it : nat) r st :
  l !! it = Some r -> scan_inv label l it st ->
  scan_inv label l (S it)
    (if String.eqb (competence r) label
     then if d_gt (trust r) (sel_trust st)
          then mkSelection (trust r) true (Some it)
          else st
     else st).
Proof.
  intros Hr (Hnan & Hbelow & Hnone & Hsome).
  assert (forall p' q, (p' < S it)%nat -> l !! p' = Some q ->
            (p' < it)%nat \/ (p' = it /\ q = r)) as Hsplit.
  { intros p' q Hlt Hq. destruct (decide (p' = it)) as [->|Hne].
    - right. split; [done | congruence].
    - left. lia. }
  destruct (String.eqb_spec (competence r) label) as [Hc|Hc];
    [destruct (d_gt (trust r) (sel_trust st)) eqn:Hgt|].
  - (* a record of the tier above the running maximum: it is selected *)
    split; [apply (d_gt_not_nan _ _ Hgt)|]. split; [|split].
    + intros p' q Hlt Hq Hcq. simpl.
      destruct (Hsplit p' q Hlt Hq) as [Hlt'|[-> ->]].
      * eapply d_gt_not_above; [by eapply Hbelow | done].
      * apply d_gt_irrefl.
    + discriminate.
    + intros _. exists it, r. simpl. repeat split; try done; try lia.
      * destruct (gotTrust st) eqn:Hgot.
        -- destruct (Hsome eq_refl) as (p0 & r0 & _ & _ & _ & _ & Ht0 & Hz0 & _).
           apply (d_gt_trans _ (trust r0)); [by rewrite Ht0 | done].
        -- by rewrite (Hnone eq_refl) in Hgt.
      * intros p' q Hlt Hq Hcq.
        destruct (d_is_nan (trust q)) eqn:Hqnan; [by right|]. left.
        apply (d_gt_le_lt _ (sel_trust st)); [done | by eapply Hbelow | done].
  - (* a record of the tier that is not above the running maximum *)
    split; [done|]. split; [|split; [done|]].
    + intros p' q Hlt Hq Hcq.
      destruct (Hsplit p' q Hlt Hq) as [Hlt'|[-> ->]]; [by eapply Hbelow | done].
    + intros Hgot. destruct (Hsome Hgot) as (p0 & r0 & ? & ? & Hrest).
      exists p0, r0. repeat split; try done; try lia; apply Hrest.
  - (* a record of another competence *)
    split; [done|]. split; [|split; [done|]].
    + intros p' q Hlt Hq Hcq.
      destruct (Hsplit p' q Hlt Hq) as [Hlt'|[-> ->]]; [by eapply Hbelow | done].
    + intros Hgot. destruct (Hsome Hgot) as (p0 & r0 & ? & ? & Hrest).
      exists p0, r0. repeat split; try done; try lia; apply Hrest.
Qed.

Lemma scan_inv_loop label (rest pre : NeighborHandlerList Address) st :
  scan_inv label (pre ++ rest) (length pre) st ->
  scan_inv label (pre ++ rest) (length (pre ++ rest))
    (scan_neighbors label rest (length pre) st).
Proof.
  revert pre st. induction rest as [|r rest IH]; intros pre st Hinv; simpl.
  - by rewrite app_nil_r in *.
  - specialize (IH (pre ++ [r])).
    rewrite <- app_assoc, length_app, Nat.add_1_r in IH. simpl in IH.
    apply IH. apply scan_inv_step; [|done].
    by rewrite list_lookup_middle.
Qed.

(** The inner loop on a tier that has a record above 0: it selects the
    first record of maximum trust of the tier. *)
Lemma scan_neighbors_selects label l :
  qualifies label l ->
  exists p r,
    scan_neighbors label l 0 selection_init = mkSelection (trust r) true (Some p) /\
    best_of_tier label l p r /\ d_gt (trust r) d_zero = true.
Proof.
  intros (r1 & Hin1 & Hc1 & Hgt1).
  pose proof (scan_inv_loop label l [] selection_init (scan_inv_init label l))
    as (Hnan & Hbelow & Hnone & Hsome). simpl in *.
  set (st := scan_neighbors label l 0 selection_init) in *.
  apply list_elem_of_lookup in Hin1 as [p1 Hp1].
  assert ((p1 < length l)%nat) as Hlt1 by (by eapply lookup_lt_Some).
  destruct (gotTrust st) eqn:Hgot.
  - destruct (Hsome eq_refl) as (p & r & Hn & Hlt & Hp & Hc & Ht & Hz & Hfirst).
    exists p, r. split; [|split; [|done]].
    + destruct st as [t g n]. simpl in *. by subst.
    + repeat split; try done.
      intros q Hq Hcq. apply list_elem_of_lookup in Hq as [pq Hpq].
      rewrite Ht. eapply Hbelow; [|done..]. by eapply lookup_lt_Some.
  - specialize (Hbelow p1 r1 Hlt1 Hp1 Hc1). rewrite (Hnone eq_refl) in Hbelow.
    congruence.
Qed.

Lemma not_qualifies_scan label l :
  ~ qualifies label l -> scan_neighbors label l 0 selection_init = selection_init.
Proof.
  intros Hnot. apply scan_neighbors_no_change. intros r Hr Hc. simpl.
  destruct (d_gt (trust r) d_zero) eqn:Hgt; [|done].
  destruct Hnot. by exists r.
Qed.

(** The outer loop walks from label [j] to the first qualifying label
    [k], below 256, and breaks there. *)
Lemma tier_loop_reaches (competences : list string) l (k : nat) label :
  first_qualifying competences l k label -> (k < 256)%nat ->
  forall (d j fuel : nat), (j + d)%nat = k -> (d < fuel)%nat ->
    tier_loop fuel competences l (Z.of_nat j) selection_init =
      Some (ByBreak, scan_neighbors label l 0 selection_init).
Proof.
  intros (Hk & Hq & Hbefore) Hk256.
  assert ((k < length competences)%nat) as Hklen by (by eapply lookup_lt_Some).
  induction d as [|d IH]; intros j fuel Hjd Hfuel;
    (destruct fuel as [|fuel]; [lia|]); simpl.
  - assert (j = k) as -> by lia.
    destruct (Z.eqb_spec (Z.of_nat k) (Z.of_nat (length competences))); [lia|].
    rewrite Nat2Z.id, Hk.
    destruct (scan_neighbors_selects label l Hq) as (p & r & -> & _). done.
  - destruct (Z.eqb_spec (Z.of_nat j) (Z.of_nat (length competences))); [lia|].
    rewrite Nat2Z.id.
    destruct (lookup_lt_is_Some_2 competences j) as [lab Hlab]; [lia|].
    rewrite Hlab. rewrite not_qualifies_scan by (apply (Hbefore j); [lia | done]).
    simpl. rewrite uint8_incr_small by lia. apply IH; lia.
Qed.

(** The [around] flags play no part in the selection. *)
Lemma scan_neighbors_around (b : bool) label (rest : NeighborHandlerList Address)
    (it : nat) st :
  scan_neighbors label (set_around b <$> rest) it st =
  scan_neighbors label rest it st.
Proof.
  revert it st. induction rest as [|r rest IH]; intros it st; csimpl; [done|].
  by rewrite IH.
Qed.

Lemma tier_loop_around (b : bool) (fuel : nat) (competences : list string) l
    (i : Z) st :
  tier_loop fuel competences (set_around b <$> l) i st =
  tier_loop fuel competences l i st.
Proof.
  revert i st. induction fuel as [|fuel IH]; intros i st; simpl; [done|].
  destruct (i =? Z.of_nat (length competences)); [done|].
  destruct (competences !! Z.to_nat i); [|done].
  rewrite scan_neighbors_around.
  destruct (gotTrust (scan_neighbors s l 0 st)); [done | apply IH].
Qed.

Lemma GetPlusTrustNeighbor_around (b : bool) (fuel : nat)
    (competences : list string) l :
  GetPlusTrustNeighbor fuel competences (set_around b <$> l) =
  GetPlusTrustNeighbor fuel competences l.
Proof.
  unfold GetPlusTrustNeighbor. rewrite tier_loop_around.
  destruct (tier_loop fuel competences l 0 selection_init) as [[[] st]|];
    try done; destruct (sel_n st) as [n|]; try done;
    unfold deref; rewrite list_lookup_fmap; by destruct (l !! n).
Qed.

(** *** Termination of the outer loop *)

Lemma tier_loop_terminates (competences : list string) l :
  (length competences < 256)%nat ->
  forall (d j : nat) st, (j + d)%nat = length competences ->
    exists res, forall fuel, (d < fuel)%nat ->
      tier_loop fuel competences l (Z.of_nat j) st = Some res.
Proof.
  intros Hlen. induction d as [|d IH]; intros j st Hjd.
  - exists (ByExhaustion, st). intros [|fuel] Hfuel; [lia|]. simpl.
    destruct (Z.eqb_spec (Z.of_nat j) (Z.of_nat (length competences))); [done | lia].
  - destruct (lookup_lt_is_Some_2 competences j) as [lab Hlab]; [lia|].
    destruct (gotTrust (scan_neighbors lab l 0 st)) eqn:Hgot.
    + exists (ByBreak, scan_neighbors lab l 0 st).
      intros [|fuel] Hfuel; [lia|]. simpl.
      destruct (Z.eqb_spec (Z.of_nat j) (Z.of_nat (length competences))); [lia|].
      by rewrite Nat2Z.id, Hlab, Hgot.
    + destruct (IH (S j) (scan_neighbors lab l 0 st)) as [res Hres]; [lia|].
      exists res. intros [|fuel] Hfuel; [lia|]. simpl.
      destruct (Z.eqb_spec (Z.of_nat j) (Z.of_nat (length competences))); [lia|].
      rewrite Nat2Z.id, Hlab, Hgot, uint8_incr_small by lia.
      apply Hres. lia.
Qed.

(** With 256 labels or more the counter never meets the size. *)
Lemma tier_loop_never_exhausts (competences : list string) l :
  (256 <= length competences)%nat ->
  forall (fuel : nat) (i : Z) st e st', 0 <= i < 256 ->
    tier_loop fuel competences l i st = Some (e, st') -> e = ByBreak.
Proof.
  intros Hlen. induction fuel as [|fuel IH]; intros i st e st' Hi; simpl; [done|].
  destruct (Z.eqb_spec i (Z.of_nat (length competences))); [lia|].
  destruct (lookup_lt_is_Some_2 competences (Z.to_nat i)) as [lab Hlab]; [lia|].
  rewrite Hlab. destruct (gotTrust (scan_neighbors lab l 0 st)).
  - by intros [= <- _].
  - apply IH. apply uint8_incr_range.
Qed.

(** If moreover none of the first 256 labels qualifies, the loop runs
    for ever. *)
Lemma tier_loop_diverges (competences : list string) l :
  (256 <= length competences)%nat ->
  (forall (j : nat) lab, (j < 256)%nat -> competences !! j = Some lab ->
     ~ qualifies lab l) ->
  forall (fuel : nat) (i : Z), 0 <= i < 256 ->
    tier_loop fuel competences l i selection_init = None.
Proof.
  intros Hlen Hnone. induction fuel as [|fuel IH]; intros i Hi; simpl; [done|].
  destruct (Z.eqb_spec i (Z.of_nat (length competences))); [lia|].
  destruct (lookup_lt_is_Some_2 competences (Z.to_nat i)) as [lab Hlab]; [lia|].
  rewrite Hlab, not_qualifies_scan by (apply (Hnone (Z.to_nat i)); [lia | done]).
  simpl. apply IH. apply uint8_incr_range.
Qed.

Lemma qualifies_dec label l : qualifies label l \/ ~ qualifies label l.
Proof.
  destruct (decide (Exists (fun r => competence r = label /\
                                     d_gt (trust r) d_zero = true) l))
    as [Hex|Hex]; rewrite Exists_exists in Hex.
  - left. destruct Hex as (r & Hin & Hc & Hgt). by exists r.
  - right. intros (r & Hin & Hc & Hgt). apply Hex. by exists r.
Qed.

(** A qualifying label at position [j] gives a first one, not later. *)
Lemma first_qualifying_exists (competences : list string) l (j : nat) lab :
  competences !! j = Some lab -> qualifies lab l ->
  exists k label, (k <= j)%nat /\ first_qualifying competences l k label.
Proof.
  revert j. induction competences as [|c competences IH]; intros j Hj Hq.
  - by rewrite lookup_nil in Hj.
  - destruct (qualifies_dec c l) as [Hc|Hc].
    + exists 0%nat, c. split; [lia|]. repeat split; [done|]. intros j' lab' Hlt. lia.
    + destruct j as [|j]; simpl in Hj; [congruence|].
      destruct (IH j Hj Hq) as (k & label & Hkj & Hk & Hql & Hbefore).
      exists (S k), label. split; [lia|]. repeat split; [done..|].
      intros [|j'] lab' Hlt Hlab'; simpl in Hlab'.
      * congruence.
      * apply (Hbefore j'); [lia | done].
Qed.

(** *** The claims on the directory *)

(** C1 (as amended).  When at least one record whose competence appears
    among the first 256 labels of the list has trust strictly greater
    than 0, [GetPlusTrustNeighbor] returns the address of the record of
    maximum trust among the records of the first label, in list order,
    that has a record with trust strictly greater than 0; among equal
    trusts the earliest registered record wins; the [around] flags play no
    part (a directory that differs only in them gives the same answer);
    the labels after that first one are not considered. *)
Theorem GetPlusTrustNeighbor_first_tier (competences : list string) l :
  (exists r (j : nat), r ∈ l /\ (j < 256)%nat /\
     competences !! j = Some (competence r) /\ d_gt (trust r) d_zero = true) ->
  exists (k : nat) label (p : nat) r,
    first_qualifying competences l k label /\
    best_of_tier label l p r /\
    d_gt (trust r) d_zero = true /\
    forall fuel : nat, (k < fuel)%nat ->
      GetPlusTrustNeighbor fuel competences l = Some (Returns (ip r)) /\
      forall l' : NeighborHandlerList Address,
        set_around true <$> l' = set_around true <$> l ->
        GetPlusTrustNeighbor fuel competences l' = Some (Returns (ip r)).
Proof.
  intros (r1 & j & Hin & Hj & Hlab & Hgt).
  destruct (first_qualifying_exists competences l j (competence r1) Hlab)
    as (k & label & Hkj & Hfirst); [by exists r1|].
  destruct (scan_neighbors_selects label l) as (p & r & Hscan & Hbest & Hz);
    [apply Hfirst|].
  exists k, label, p, r. do 3 (split; [done|]).
  intros fuel Hfuel.
  assert (GetPlusTrustNeighbor fuel competences l = Some (Returns (ip r))) as Hres.
  { unfold GetPlusTrustNeighbor.
    pose proof (tier_loop_reaches competences l k label Hfirst ltac:(lia)
                  k 0%nat fuel eq_refl Hfuel) as Hloop.
    change (Z.of_nat 0) with 0 in Hloop. rewrite Hloop, Hscan. simpl. unfold deref.
    destruct Hbest as (Hp & _). by rewrite Hp. }
  split; [done|]. intros l' Hsame.
  rewrite <- (GetPlusTrustNeighbor_around true fuel competences l'), Hsame.
  by rewrite GetPlusTrustNeighbor_around.
Qed.

(** C3.  After [TurnOffLiveNeighbors], then [TurnNeighborOn] for exactly
    the addresses of [confirmed], a registered address is alive if and
    only if it is one of [confirmed]. *)
Theorem alive_iff_confirmed (confirmed : list Address) (x : Address) l :
  IsAlreadyNeighbor x l = true ->
  exists b : bool,
    IsAliveNeighbor x (TurnNeighborsOn confirmed (TurnOffLiveNeighbors l))
      = Returns b /\
    (b = true <-> x ∈ confirmed).
Proof.
  intros Hx. apply IsAlreadyNeighbor_true in Hx.
  destruct (seek_present x l 0 Hx) as (p & r & _ & Hrec).
  destruct (TurnNeighborsOn_first confirmed x _ p _
              (TurnOffLiveNeighbors_first x l p r Hrec)) as (r' & Hrec' & Har).
  exists (bool_decide (x ∈ confirmed)). split.
  - destruct (lookups_first_record x _ p r' Hrec') as (-> & _).
    by rewrite Har.
  - apply bool_decide_eq_true.
Qed.

(** C4 (what the code does).  [UnregisterOffNeighbors] returns, with the
    list unchanged, only when no record is stale.  As soon as a record has
    [around = false] it erases it and goes on with the iterator that the
    [erase] invalidated: the call faults, where the claim has the stale
    records deleted and the others kept.  So after [TurnOffLiveNeighbors]
    it faults on every directory that is not empty. *)
Theorem UnregisterOffNeighbors_faults_on_stale l :
  UnregisterOffNeighbors l
    = Some (if forallb around l then Returns l else Fault) /\
  UnregisterOffNeighbors (TurnOffLiveNeighbors l)
    = Some (if vector_empty l then Returns [] else Fault) /\
  IsThereAnyNeighbor ([] : NeighborHandlerList Address) = false.
Proof.
  split; [apply UnregisterOffNeighbors_spec|]. split; [|done].
  rewrite UnregisterOffNeighbors_spec. by destruct l.
Qed.

(** C5 (as amended).  When the caller registers an address only after
    [IsAlreadyNeighbor] has answered [false] for it, every reachable
    directory holds at most one record per address. *)
Theorem guarded_directory_NoDup l :
  reachable_guarded l -> NoDup (GetNeighborIpList l).
Proof.
  rewrite GetNeighborIpList_fmap.
  induction 1 as [|ip0 c ints t l Hl IH Hnew|ip0 l Hl IH|l Hl IH
                  |l l' Hl IH Hoff|ip0 l Hl IH].
  - constructor.
  - unfold RegisterNeighbor. rewrite fmap_app. apply NoDup_app.
    split; [done|]. split; [|apply NoDup_singleton].
    intros a Ha Hin. apply list_elem_of_singleton in Hin. simpl in Hin. subst a.
    by apply IsAlreadyNeighbor_false in Hnew.
  - eapply sublist_NoDup; [exact IH|].
    apply fmap_sublist, UnregisterNeighbor_sublist.
  - by rewrite TurnOffLiveNeighbors_ips.
  - by apply UnregisterOffNeighbors_returns in Hoff as [-> _].
  - by rewrite TurnNeighborOn_ips.
Qed.

(** C6.  For an address that [IsAlreadyNeighbor] accepts, the four
    lookups stop on a record of the list, never on [end ()], and return
    the fields of the first record of that address. *)
Theorem lookups_of_known_neighbor (ip0 : Address) l :
  IsAlreadyNeighbor ip0 l = true ->
  exists (p : nat) r,
    first_record ip0 l p r /\
    seek ip0 l 0 = p /\ (p < length l)%nat /\
    IsAliveNeighbor ip0 l = Returns (around r) /\
    GetNeighborTrust ip0 l = Returns (trust r) /\
    GetNeighborCompetence ip0 l = Returns (competence r) /\
    GetNeighborInterests ip0 l = Returns (interests r).
Proof.
  intros Hin. apply IsAlreadyNeighbor_true in Hin.
  destruct (seek_present ip0 l 0 Hin) as (p & r & Hseek & Hrec).
  exists p, r. split; [done|]. split; [by rewrite Hseek|].
  split; [|apply (lookups_first_record ip0 l p r Hrec)].
  destruct Hrec as (Hp & _). by eapply lookup_lt_Some.
Qed.

(** C7.  Right after [RegisterNeighbor (ip0, c, ints, t)] for an address
    that was not in the directory, the lookups give back [c], [ints] and
    [t], and the neighbor is alive. *)
Theorem register_round_trip (ip0 : Address) (c : string) (ints : list string)
    (t : double) l :
  IsAlreadyNeighbor ip0 l = false ->
  GetNeighborCompetence ip0 (RegisterNeighbor ip0 c ints t l) = Returns c /\
  GetNeighborInterests ip0 (RegisterNeighbor ip0 c ints t l) = Returns ints /\
  GetNeighborTrust ip0 (RegisterNeighbor ip0 c ints t l) = Returns t /\
  IsAliveNeighbor ip0 (RegisterNeighbor ip0 c ints t l) = Returns true.
Proof.
  intros Hnew. apply IsAlreadyNeighbor_false in Hnew.
  assert (first_record ip0 (RegisterNeighbor ip0 c ints t l) (length l)
            (mkNeighbor ip0 c ints t true)) as Hrec.
  { unfold RegisterNeighbor. repeat split.
    - by rewrite list_lookup_middle.
    - intros p' q Hlt Hq Hip. rewrite lookup_app_l in Hq by done.
      apply Hnew. rewrite list_elem_of_fmap. exists q.
      split; [done | by eapply list_elem_of_lookup_2]. }
  destruct (lookups_first_record _ _ _ _ Hrec) as (Ha & Ht & Hc & Hi).
  by rewrite Ha, Ht, Hc, Hi.
Qed.

(** C10.  With fewer than 256 labels [GetPlusTrustNeighbor] terminates
    (it returns or faults within one iteration per label, plus the final
    test).  With 256 labels or more the 8-bit counter never equals the
    size: the loop is never left by exhaustion, and when none of the first
    256 labels qualifies it is never left at all. *)
Theorem GetPlusTrustNeighbor_termination (competences : list string) l :
  ((length competences < 256)%nat ->
     exists out, forall fuel : nat, (length competences < fuel)%nat ->
       GetPlusTrustNeighbor fuel competences l = Some out) /\
  ((256 <= length competences)%nat ->
     (forall (fuel : nat) st,
        tier_loop fuel competences l 0 selection_init <> Some (ByExhaustion, st)) /\
     ((forall (j : nat) lab, (j < 256)%nat -> competences !! j = Some lab ->
         ~ qualifies lab l) ->
      forall fuel : nat, GetPlusTrustNeighbor fuel competences l = None)).
Proof.
  split; [intros Hlen | intros Hlen; split].
  - destruct (tier_loop_terminates competences l Hlen (length competences) 0
                selection_init) as [[e st] Hres]; [lia|].
    change (Z.of_nat 0) with 0 in Hres.
    destruct e; eexists; intros fuel Hfuel; unfold GetPlusTrustNeighbor;
      rewrite Hres by done; reflexivity.
  - intros fuel st Hex.
    by apply (tier_loop_never_exhausts competences l Hlen) in Hex.
  - intros Hnone fuel. unfold GetPlusTrustNeighbor.
    by rewrite (tier_loop_diverges competences l Hlen Hnone).
Qed.

End NeighborFacts.

(** ** Protocol handler registry *)

Section HandlerFacts.

Import Handlers.

Context {NetDevice Packet Address PacketType ProtocolHandler : Type}.
Context `{EqDecision NetDevice} `{EqDecision ProtocolHandler}.

Implicit Types (e : ProtocolHandlerEntry NetDevice ProtocolHandler).
Implicit Types (node : Node NetDevice ProtocolHandler).

(** The three nested tests of the loop body, against [entry_matches]. *)
Lemma entry_tests_accept (device0 : Ptr NetDevice) (protocol0 : Z)
    (promiscuous0 : bool) e :
  entry_matches device0 protocol0 promiscuous0 e ->
  is_null (device e)
    || (negb (is_null (device e)) && bool_decide (device e = device0)) = true /\
  (protocol e =? 0) || (protocol e =? protocol0) = true /\
  Bool.eqb promiscuous0 (promiscuous e) = true.
Proof.
  intros (Hd & Hp & Hm). repeat split.
  - destruct Hd as [Hd|Hd]; [by rewrite Hd|].
    destruct (device e); simpl; [by apply bool_decide_eq_true | done].
  - apply orb_true_iff. destruct Hp as [Hp|Hp]; [left | right]; by apply Z.eqb_eq.
  - apply Bool.eqb_true_iff. done.
Qed.

Lemma entry_tests_reject (device0 : Ptr NetDevice) (protocol0 : Z)
    (promiscuous0 : bool) e :
  ~ entry_matches device0 protocol0 promiscuous0 e ->
  is_null (device e)
    || (negb (is_null (device e)) && bool_decide (device e = device0)) = false \/
  (protocol e =? 0) || (protocol e =? protocol0) = false \/
  Bool.eqb promiscuous0 (promiscuous e) = false.
Proof.
  intros Hno.
  destruct (is_null (device e)
            || (negb (is_null (device e)) && bool_decide (device e = device0)))
    eqn:Hd; [|by left].
  destruct ((protocol e =? 0) || (protocol e =? protocol0)) eqn:Hp;
    [|by right; left].
  destruct (Bool.eqb promiscuous0 (promiscuous e)) eqn:Hm; [|by right; right].
  destruct Hno. repeat split.
  - destruct (device e); simpl in Hd; [right | by left].
    by apply bool_decide_eq_true in Hd.
  - apply orb_true_iff in Hp as [Hp|Hp]; [left | right]; by apply Z.eqb_eq.
  - symmetry. by apply Bool.eqb_true_iff.
Qed.

(** The loop adds to [calls] one invocation per matching entry, in the
    order of the vector, and sets [found] when there is one. *)
Lemma ReceiveFromDevice_loop_spec (device0 : Ptr NetDevice) (packet : Packet)
    (protocol0 : Z) (from to : Address) (packetType : PacketType)
    (promiscuous0 : bool) (rest : ProtocolHandlerList NetDevice ProtocolHandler)
    (found : bool)
    (calls : list (invocation NetDevice Packet Address PacketType ProtocolHandler)) :
  let matching := filter (entry_matches device0 protocol0 promiscuous0) rest in
  ReceiveFromDevice_loop device0 packet protocol0 from to packetType
    promiscuous0 rest found calls =
  (found || negb (vector_empty matching),
   calls ++ (invocation_of device0 packet protocol0 from to packetType
               <$> matching)).
Proof.
  revert found calls. induction rest as [|e rest IH]; intros found calls; simpl.
  - by rewrite orb_false_r, app_nil_r.
  - destruct (decide (entry_matches device0 protocol0 promiscuous0 e)) as [Hm|Hm].
    + destruct (entry_tests_accept _ _ _ _ Hm) as (-> & -> & ->).
      rewrite IH, filter_cons_True by done. simpl.
      rewrite orb_true_r. by rewrite <- app_assoc.
    + rewrite filter_cons_False by done.
      destruct (entry_tests_reject _ _ _ _ Hm) as [->|[->| ->]]; [apply IH|..].
      * destruct (is_null (device e)
                  || (negb (is_null (device e))
                      && bool_decide (device e = device0))); apply IH.
      * destruct (is_null (device e)
                  || (negb (is_null (device e))
                      && bool_decide (device e = device0)));
          [destruct ((protocol e =? 0) || (protocol e =? protocol0))|];
          apply IH.
Qed.

Lemma erase_handler_sublist (h : ProtocolHandler)
    (hs : ProtocolHandlerList NetDevice ProtocolHandler) :
  erase_handler h hs `sublist_of` hs.
Proof.
  induction hs as [|e hs IH]; simpl; [done|].
  destruct (decide (handler e = h)).
  - by apply sublist_cons.
  - by apply sublist_skip.
Qed.

Lemma erase_handler_absent (h : ProtocolHandler)
    (hs : ProtocolHandlerList NetDevice ProtocolHandler) :
  (forall e, e ∈ hs -> handler e <> h) -> erase_handler h hs = hs.
Proof.
  induction hs as [|e hs IH]; intros Hno; simpl; [done|].
  destruct (decide (handler e = h)) as [Heq|Hne].
  - destruct (Hno e); [apply list_elem_of_here | done].
  - rewrite IH; [done|]. intros e' He'. apply Hno. by apply list_elem_of_further.
Qed.

Lemma after_calls_snoc (calls : list (registry_call NetDevice ProtocolHandler))
    (c : registry_call NetDevice ProtocolHandler) node :
  after_calls (calls ++ [c]) node = do_call (after_calls calls node) c.
Proof. unfold after_calls. by rewrite foldl_app. Qed.

Lemma registered_snoc (calls : list (registry_call NetDevice ProtocolHandler))
    (c : registry_call NetDevice ProtocolHandler) :
  registered (calls ++ [c]) = registered calls ++ registered [c].
Proof.
  induction calls as [|c' calls IH]; simpl; [by rewrite app_nil_r || done|].
  destruct c'; simpl; by rewrite IH.
Qed.

(** The vector holds registered entries, in the order of registration. *)
Lemma handlers_in_registration_order
    (calls : list (registry_call NetDevice ProtocolHandler))
    (devices : list NetDevice) :
  m_handlers (after_calls calls (fresh_node devices)) `sublist_of` registered calls.
Proof.
  induction calls as [|c calls IH] using rev_ind; [done|].
  rewrite after_calls_snoc, registered_snoc. destruct c as [h p d m|h]; simpl.
  - by apply sublist_app.
  - rewrite app_nil_r. etrans; [apply erase_handler_sublist | done].
Qed.

(** C2.  Whatever calls to [RegisterProtocolHandler] and
    [UnregisterProtocolHandler] came before, [ReceiveFromDevice] invokes
    the entries whose device filter is null or the receiving device, whose
    protocol filter is 0 or the protocol of the frame, and whose
    promiscuous flag is that of the dispatch: all of them, only them, in
    the order of registration; it returns [true] exactly when it invoked
    one, [false] on a registry without entries. *)
Theorem ReceiveFromDevice_invokes_matching
    (calls : list (registry_call NetDevice ProtocolHandler))
    (devices : list NetDevice) (device0 : Ptr NetDevice) (packet : Packet)
    (protocol0 : Z) (from to : Address) (packetType : PacketType)
    (promiscuous0 : bool) :
  let node := after_calls calls (fresh_node devices) in
  let matching :=
    filter (entry_matches device0 protocol0 promiscuous0) (m_handlers node) in
  let result :=
    ReceiveFromDevice device0 packet protocol0 from to packetType
      promiscuous0 node in
  m_handlers node `sublist_of` registered calls /\
  result.2 = invocation_of device0 packet protocol0 from to packetType
               <$> matching /\
  (result.1 = true <-> result.2 <> []) /\
  (result.1 = true <->
     exists e, e ∈ m_handlers node /\
               entry_matches device0 protocol0 promiscuous0 e) /\
  ReceiveFromDevice device0 packet protocol0 from to packetType
    promiscuous0 (fresh_node devices : Node NetDevice ProtocolHandler)
    = (false, []).
Proof.
  intros node matching result.
  split; [apply handlers_in_registration_order|].
  assert (result = (negb (vector_empty matching),
                    invocation_of device0 packet protocol0 from to packetType
                      <$> matching)) as ->.
  { unfold result, ReceiveFromDevice. by rewrite ReceiveFromDevice_loop_spec. }
  simpl. split; [done|]. split; [|split; [|done]].
  - destruct matching; simpl; split; done.
  - split.
    + intros Hfound. destruct matching as [|e m] eqn:Hm; [done|].
      assert (e ∈ matching) as Hin by (rewrite Hm; apply list_elem_of_here).
      apply list_elem_of_filter in Hin as [Hmatch Hin]. by exists e.
    + intros (e & He & Hmatch).
      assert (e ∈ matching) as Hin by (by apply list_elem_of_filter).
      destruct matching; [by apply elem_of_nil in Hin | done].
Qed.

End HandlerFacts.

(** ** Attending queue *)

Section AttendingFacts.

Import Attendings.

Context {Address : Type} `{EqDecision Address}.

Implicit Types (q : AttendingHandlerList Address) (r : Attending Address).

Lemma attending_erase_absent (ip0 : Address) q :
  (forall r, r ∈ q -> ip r <> ip0) -> erase_first ip0 q = q.
Proof.
  induction q as [|r q IH]; intros Hno; simpl; [done|].
  destruct (decide (ip r = ip0)) as [Heq|Hne].
  - destruct (Hno r); [apply list_elem_of_here | done].
  - rewrite IH; [done|]. intros r' Hr'. apply Hno. by apply list_elem_of_further.
Qed.

Lemma attending_erase_first (ip0 : Address) q (p : nat) r :
  first_attending ip0 q p r -> erase_first ip0 q = delete p q.
Proof.
  revert p. induction q as [|r0 q IH]; intros p (Hp & Hip & Hfirst).
  - by rewrite lookup_nil in Hp.
  - simpl. destruct p as [|p]; simpl in Hp.
    + injection Hp as ->. by destruct (decide (ip r = ip0)).
    + destruct (decide (ip r0 = ip0)) as [Heq|Hne].
      * destruct (Hfirst 0%nat r0); [lia | done | done].
      * simpl. f_equal. apply IH. repeat split; [done..|].
        intros p' r' Hlt Hr'. apply (Hfirst (S p') r'); [lia | done].
Qed.

Lemma GetNPendingAttending_small q :
  Z.of_nat (length q) <= INT_MAX -> GetNPendingAttending q = Z.of_nat (length q).
Proof. intros Hq. apply to_int_small. lia. Qed.

(** C8 (as amended).  On a queue of fewer than 2^31 - 1 records
    [RegisterAttendingCall] appends one record and
    [GetNPendingAttending] grows by exactly 1.  On a queue of at most
    2^31 - 1 records [CloseAttending] removes the first record of the
    address, when there is one, and the count drops by exactly 1.  On any
    queue it changes nothing when the queue is empty or holds no record
    of the address.  Hence open, close, close again on the empty queue
    leaves the count at 0. *)
Theorem attending_queue_counts (ip0 : Address) (criticalData0 : string)
    (priority : Z) (attendingCallTime : double) q :
  (Z.of_nat (length q) < INT_MAX ->
     RegisterAttendingCall ip0 criticalData0 priority attendingCallTime q
       = q ++ [mkAttending ip0 criticalData0 attendingCallTime priority] /\
     GetNPendingAttending
       (RegisterAttendingCall ip0 criticalData0 priority attendingCallTime q)
       = GetNPendingAttending q + 1) /\
  (Z.of_nat (length q) <= INT_MAX ->
     forall (p : nat) r, first_attending ip0 q p r ->
       CloseAttending ip0 q = delete p q /\
       GetNPendingAttending (CloseAttending ip0 q) = GetNPendingAttending q - 1) /\
  ((forall r, r ∈ q -> ip r <> ip0) -> CloseAttending ip0 q = q) /\
  CloseAttending ip0 ([] : AttendingHandlerList Address) = [] /\
  (let q1 := RegisterAttendingCall ip0 criticalData0 priority attendingCallTime [] in
   GetNPendingAttending q1 = 1 /\
   GetNPendingAttending (CloseAttending ip0 q1) = 0 /\
   CloseAttending ip0 (CloseAttending ip0 q1) = CloseAttending ip0 q1 /\
   GetNPendingAttending (CloseAttending ip0 (CloseAttending ip0 q1)) = 0).
Proof.
  split; [|split; [|split; [|split]]].
  - intros Hq. split; [done|]. unfold RegisterAttendingCall.
    rewrite !GetNPendingAttending_small; rewrite ?length_app; simpl; lia.
  - intros Hq p r Hrec.
    assert ((p < length q)%nat) as Hp
      by (destruct Hrec as (Hp & _); by eapply lookup_lt_Some).
    assert (CloseAttending ip0 q = delete p q) as ->.
    { unfold CloseAttending. rewrite GetNPendingAttending_small by done.
      destruct (Z.eqb_spec (Z.of_nat (length q)) 0); [lia|]. simpl.
      by apply attending_erase_first with r. }
    split; [done|].
    assert (length (delete p q) = (length q - 1)%nat) as Hlen
      by (apply length_delete, lookup_lt_is_Some_2, Hp).
    rewrite !GetNPendingAttending_small; lia.
  - intros Hno. unfold CloseAttending.
    destruct (negb (GetNPendingAttending q =? 0)); [|done].
    by apply attending_erase_absent.
  - done.
  - unfold CloseAttending, RegisterAttendingCall, GetNPendingAttending. simpl.
    destruct (decide (ip0 = ip0)); done.
Qed.

End AttendingFacts.

(** ** Benign absence *)

Section BenignAbsence.

Import Neighbors Handlers.

Context {Address NetDevice ProtocolHandler : Type}.
Context `{EqDecision Address} `{EqDecision NetDevice} `{EqDecision ProtocolHandler}.

(** C9.  [UnregisterNeighbor] of an address that has no record leaves the
    directory as it was, and so [GetNeighborIpList];
    [UnregisterProtocolHandler] of a handler that no entry holds leaves
    the registry as it was. *)
Theorem unregister_absent_is_noop (ip0 : Address)
    (l : NeighborHandlerList Address) (h : ProtocolHandler)
    (node : Node NetDevice ProtocolHandler) :
  ((forall r, r ∈ l -> ip r <> ip0) ->
     UnregisterNeighbor ip0 l = l /\
     GetNeighborIpList (UnregisterNeighbor ip0 l) = GetNeighborIpList l) /\
  ((forall e, e ∈ m_handlers node -> handler e <> h) ->
     UnregisterProtocolHandler h node = node).
Proof.
  split.
  - intros Hno.
    assert (UnregisterNeighbor ip0 l = l) as ->; [|done].
    unfold UnregisterNeighbor.
    destruct (IsAlreadyNeighbor ip0 l) eqn:Hin; [|done].
    apply IsAlreadyNeighbor_true, list_elem_of_fmap in Hin as (r & Hip & Hr).
    by destruct (Hno r Hr).
  - intros Hno. unfold UnregisterProtocolHandler.
    rewrite erase_handler_absent by done. by destruct node.
Qed.

End BenignAbsence.

(** ** Concrete runs *)

Section DirectoryRuns.

Import Neighbors.

Open Scope string_scope.

(** Priority tier wins over raw trust. *)
Example doctor_before_nurse :
  GetPlusTrustNeighbor 3 ["doctor"; "nurse"] nurse_and_doctor
    = Some (Returns 2%nat).
Proof. reflexivity. Qed.

(** Maximum trust within the first tier that has a match. *)
Example best_nurse :
  GetPlusTrustNeighbor 3 ["doctor"; "nurse"]
    [mkNeighbor 1%nat "nurse" [] d_0_9 true; mkNeighbor 2%nat "nurse" [] d_0_4 true]
    = Some (Returns 1%nat).
Proof. reflexivity. Qed.

(** Equal trusts: the earliest registered record. *)
Example earliest_of_equals :
  GetPlusTrustNeighbor 3 ["nurse"]
    [mkNeighbor 1%nat "nurse" [] d_0_4 false; mkNeighbor 2%nat "nurse" [] d_0_9 false;
     mkNeighbor 3%nat "nurse" [] d_0_9 true]
    = Some (Returns 2%nat).
Proof. reflexivity. Qed.

(** No record above 0: the iterator [n] is read without a value. *)
Example nobody_qualifies :
  GetPlusTrustNeighbor 3 ["caregiver"] nurse_and_doctor = Some Fault.
Proof. reflexivity. Qed.

Lemma only_doctors_qualify label :
  qualifies label one_doctor -> label = "doctor".
Proof.
  intros (r & Hr & Hc & _). apply list_elem_of_singleton in Hr. by subst.
Qed.

Lemma long_list_prefix (j : nat) lab :
  (j < 256)%nat -> long_list !! j = Some lab -> lab = "x".
Proof.
  intros Hj. unfold long_list.
  rewrite lookup_app_l by (by rewrite length_replicate).
  rewrite lookup_replicate. by intros [-> _].
Qed.

Lemma long_list_length : (256 <= length long_list)%nat.
Proof. unfold long_list. rewrite length_app, length_replicate. simpl. lia. Qed.

Lemma long_list_never_qualifies (j : nat) lab :
  (j < 256)%nat -> long_list !! j = Some lab -> ~ qualifies lab one_doctor.
Proof.
  intros Hj Hlab Hq. apply long_list_prefix in Hlab; [|done].
  apply only_doctors_qualify in Hq. congruence.
Qed.

(** C1, as stated, fails: a record of a listed competence has trust 1.0,
    yet [GetPlusTrustNeighbor] never returns, whatever the fuel. *)
Lemma GetPlusTrustNeighbor_long_list_diverges :
  (exists r, r ∈ one_doctor /\ competence r ∈ long_list /\
             d_gt (trust r) d_zero = true) /\
  forall fuel : nat, GetPlusTrustNeighbor fuel long_list one_doctor = None.
Proof.
  split.
  - exists (mkNeighbor 1%nat "doctor" [] d_1_0 true).
    split; [apply list_elem_of_here|]. split; [|reflexivity].
    unfold long_list. apply elem_of_app. right. apply list_elem_of_here.
  - intros fuel. unfold GetPlusTrustNeighbor.
    rewrite tier_loop_diverges; [done | apply long_list_length | | lia].
    apply long_list_never_qualifies.
Qed.

Lemma GetPlusTrustNeighbor_first_tier_witness :
  exists (k : nat) label (p : nat) r,
    first_qualifying ["doctor"; "nurse"] nurse_and_doctor k label /\
    best_of_tier label nurse_and_doctor p r /\
    d_gt (trust r) d_zero = true /\
    forall fuel : nat, (k < fuel)%nat ->
      GetPlusTrustNeighbor fuel ["doctor"; "nurse"] nurse_and_doctor
        = Some (Returns (ip r)) /\
      forall l' : NeighborHandlerList nat,
        set_around true <$> l' = set_around true <$> nurse_and_doctor ->
        GetPlusTrustNeighbor fuel ["doctor"; "nurse"] l' = Some (Returns (ip r)).
Proof.
  apply (GetPlusTrustNeighbor_first_tier ["doctor"; "nurse"] nurse_and_doctor).
  exists (mkNeighbor 2%nat "doctor" [] d_0_2 true), 0%nat.
  split; [apply list_elem_of_further, list_elem_of_here|].
  split; [lia|]. split; reflexivity.
Defined.

Lemma alive_iff_confirmed_witness :
  IsAlreadyNeighbor 2%nat nurse_and_doctor = true /\
  exists b : bool,
    IsAliveNeighbor 2%nat
      (TurnNeighborsOn [2%nat] (TurnOffLiveNeighbors nurse_and_doctor))
      = Returns b /\
    (b = true <-> 2%nat ∈ [2%nat]).
Proof.
  split; [reflexivity|].
  apply (alive_iff_confirmed [2%nat] 2%nat nurse_and_doctor). reflexivity.
Defined.

(** C5, as stated, fails: registering an address twice is reachable and
    leaves two records of it. *)
Lemma twice_registered_duplicate :
  reachable (RegisterNeighbor 1%nat "nurse" [] d_0_7
               (RegisterNeighbor 1%nat "nurse" [] d_0_7 [])) /\
  GetNeighborIpList (RegisterNeighbor 1%nat "nurse" [] d_0_7
                       (RegisterNeighbor 1%nat "nurse" [] d_0_7 []))
    = [1%nat; 1%nat] /\
  ~ NoDup (GetNeighborIpList
             (RegisterNeighbor 1%nat "nurse" [] d_0_7
                (RegisterNeighbor 1%nat "nurse" [] d_0_7 []))).
Proof.
  split; [do 2 apply reach_register; apply reach_init|].
  split; [reflexivity|].
  intros Hnd. apply NoDup_cons in Hnd as [Hnot _].
  apply Hnot, list_elem_of_here.
Qed.

Lemma guarded_directory_NoDup_witness :
  reachable_guarded nurse_and_doctor /\
  NoDup (GetNeighborIpList nurse_and_doctor).
Proof.
  assert (reachable_guarded nurse_and_doctor) as Hreach.
  { apply guard_register; [apply guard_register; [apply guard_init|]|];
      reflexivity. }
  split; [exact Hreach | exact (guarded_directory_NoDup nurse_and_doctor Hreach)].
Defined.

Lemma lookups_of_known_neighbor_witness :
  IsAlreadyNeighbor 2%nat nurse_and_doctor = true /\
  exists (p : nat) r,
    first_record 2%nat nurse_and_doctor p r /\
    seek 2%nat nurse_and_doctor 0 = p /\ (p < length nurse_and_doctor)%nat /\
    IsAliveNeighbor 2%nat nurse_and_doctor = Returns (around r) /\
    GetNeighborTrust 2%nat nurse_and_doctor = Returns (trust r) /\
    GetNeighborCompetence 2%nat nurse_and_doctor = Returns (competence r) /\
    GetNeighborInterests 2%nat nurse_and_doctor = Returns (interests r).
Proof.
  split; [reflexivity|].
  apply (lookups_of_known_neighbor 2%nat nurse_and_doctor). reflexivity.
Defined.

Lemma register_round_trip_witness :
  IsAlreadyNeighbor 3%nat nurse_and_doctor = false /\
  GetNeighborCompetence 3%nat
    (RegisterNeighbor 3%nat "nurse" ["vitals"] d_0_7 nurse_and_doctor)
    = Returns "nurse" /\
  GetNeighborInterests 3%nat
    (RegisterNeighbor 3%nat "nurse" ["vitals"] d_0_7 nurse_and_doctor)
    = Returns ["vitals"] /\
  GetNeighborTrust 3%nat
    (RegisterNeighbor 3%nat "nurse" ["vitals"] d_0_7 nurse_and_doctor)
    = Returns d_0_7 /\
  IsAliveNeighbor 3%nat
    (RegisterNeighbor 3%nat "nurse" ["vitals"] d_0_7 nurse_and_doctor)
    = Returns true.
Proof.
  split; [reflexivity|].
  apply (register_round_trip 3%nat "nurse" ["vitals"] d_0_7 nurse_and_doctor).
  reflexivity.
Defined.

Lemma GetPlusTrustNeighbor_termination_witness :
  ((length ["doctor"; "nurse"] < 256)%nat /\
   exists out, forall fuel : nat, (length ["doctor"; "nurse"] < fuel)%nat ->
     GetPlusTrustNeighbor fuel ["doctor"; "nurse"] nurse_and_doctor = Some out) /\
  ((256 <= length long_list)%nat /\
   (forall (fuel : nat) st,
      tier_loop fuel long_list one_doctor 0 selection_init
        <> Some (ByExhaustion, st)) /\
   forall fuel : nat, GetPlusTrustNeighbor fuel long_list one_doctor = None).
Proof.
  pose proof long_list_length as Hlong.
  split.
  - split; [simpl; lia|].
    apply (GetPlusTrustNeighbor_termination ["doctor"; "nurse"] nurse_and_doctor).
    simpl. lia.
  - split; [exact Hlong|].
    destruct (GetPlusTrustNeighbor_termination long_list one_doctor)
      as [_ Hge]. destruct (Hge Hlong) as [Hnever Hloops].
    split; [exact Hnever|]. apply Hloops, long_list_never_qualifies.
Defined.

End DirectoryRuns.

Section RegistryRuns.

Import Handlers.

(** An IPv4 frame on device 7, not promiscuous: handlers 1 and 4, in that
    order; handler 2 is promiscuous, handler 3 wants ARP. *)
Example dispatch_ipv4 :
  ReceiveFromDevice (Some 7%nat) tt 2048 10%nat 11%nat tt false three_handlers
    = (true, [mkInvocation 1%nat (Some 7%nat) tt 2048 10%nat 11%nat tt;
              mkInvocation 4%nat (Some 7%nat) tt 2048 10%nat 11%nat tt]).
Proof. reflexivity. Qed.

(** The same frame in promiscuous mode: handler 2 alone. *)
Example dispatch_promiscuous :
  ReceiveFromDevice (Some 7%nat) tt 2048 10%nat 11%nat tt true three_handlers
    = (true, [mkInvocation 2%nat (Some 7%nat) tt 2048 10%nat 11%nat tt]).
Proof. reflexivity. Qed.

(** After the two wildcard handlers are unregistered an IPv6 frame finds
    nobody. *)
Example dispatch_nobody :
  ReceiveFromDevice (Some 7%nat) tt 34525 10%nat 11%nat tt false
    (UnregisterProtocolHandler 4%nat three_handlers)
    = (false, []).
Proof. reflexivity. Qed.

(** Registering a promiscuous handler without a device sets the callback
    on every device of the node. *)
Example promiscuous_on_all_devices :
  promisc_callbacks
    (RegisterProtocolHandler 5%nat 0 None true
       (fresh_node [7%nat; 8%nat] : Node nat nat))
    = [7%nat; 8%nat].
Proof. reflexivity. Qed.

Lemma unregister_absent_is_noop_witness :
  ((forall r, r ∈ nurse_and_doctor -> Neighbors.ip r <> 3%nat) /\
   Neighbors.UnregisterNeighbor 3%nat nurse_and_doctor = nurse_and_doctor /\
   Neighbors.GetNeighborIpList (Neighbors.UnregisterNeighbor 3%nat nurse_and_doctor)
     = Neighbors.GetNeighborIpList nurse_and_doctor) /\
  ((forall e, e ∈ m_handlers three_handlers -> handler e <> 9%nat) /\
   UnregisterProtocolHandler 9%nat three_handlers = three_handlers).
Proof.
  assert (forall r, r ∈ nurse_and_doctor -> Neighbors.ip r <> 3%nat) as Hdir.
  { intros r Hr. unfold nurse_and_doctor, Neighbors.RegisterNeighbor in Hr.
    simpl in Hr. repeat (apply elem_of_cons in Hr as [->|Hr]); try discriminate.
    by apply elem_of_nil in Hr. }
  assert (forall e, e ∈ m_handlers three_handlers -> handler e <> 9%nat) as Hreg.
  { intros e He. unfold three_handlers in He. simpl in He.
    repeat (apply elem_of_cons in He as [->|He]); try discriminate.
    by apply elem_of_nil in He. }
  destruct (unregister_absent_is_noop 3%nat nurse_and_doctor 9%nat three_handlers)
    as [Hl Hh].
  split; [split; [exact Hdir | exact (Hl Hdir)] | split; [exact Hreg | exact (Hh Hreg)]].
Defined.

End RegistryRuns.

Section QueueRuns.

Import Attendings.

Open Scope string_scope.

(** Open, count, close, count, close again. *)
Example open_close_close :
  GetNPendingAttending one_call = 1 /\
  GetNPendingAttending (CloseAttending 1%nat one_call) = 0 /\
  GetNPendingAttending (CloseAttending 1%nat (CloseAttending 1%nat one_call)) = 0.
Proof. repeat split. Qed.

Lemma full_queue_length : Z.of_nat (length full_queue) = INT_MAX.
Proof.
  unfold full_queue. rewrite length_replicate. apply Z2Nat.id. discriminate.
Qed.

(** C8, as stated, fails: on a queue of 2^31 - 1 calls the count is
    2147483647, and after one more [RegisterAttendingCall] the conversion
    to [int] gives -2147483648. *)
Lemma count_wraps_on_full_queue :
  GetNPendingAttending full_queue = 2147483647 /\
  GetNPendingAttending (RegisterAttendingCall 2%nat "InfoB" 1 d_zero full_queue)
    = -2147483648 /\
  GetNPendingAttending (RegisterAttendingCall 2%nat "InfoB" 1 d_zero full_queue)
    <> GetNPendingAttending full_queue + 1.
Proof.
  assert (GetNPendingAttending full_queue = 2147483647) as Hbefore.
  { unfold GetNPendingAttending. rewrite full_queue_length. reflexivity. }
  assert (GetNPendingAttending
            (RegisterAttendingCall 2%nat "InfoB" 1 d_zero full_queue)
          = -2147483648) as Hafter.
  { unfold GetNPendingAttending, RegisterAttendingCall.
    rewrite length_app, Nat2Z.inj_add, full_queue_length. reflexivity. }
  split; [done|]. split; [done|]. rewrite Hbefore, Hafter. discriminate.
Qed.

Lemma attending_queue_counts_witness :
  (Z.of_nat (length one_call) < INT_MAX /\
   GetNPendingAttending (RegisterAttendingCall 2%nat "InfoB" 2 d_zero one_call)
     = GetNPendingAttending one_call + 1) /\
  (Z.of_nat (length one_call) <= INT_MAX /\
   first_attending 1%nat one_call 0 (mkAttending 1%nat "InfoA" d_zero 1) /\
   CloseAttending 1%nat one_call = delete 0%nat one_call /\
   GetNPendingAttending (CloseAttending 1%nat one_call)
     = GetNPendingAttending one_call - 1) /\
  ((forall r, r ∈ one_call -> ip r <> 2%nat) /\
   CloseAttending 2%nat one_call = one_call).
Proof.
  assert (first_attending 1%nat one_call 0 (mkAttending 1%nat "InfoA" d_zero 1))
    as Hfirst.
  { repeat split. intros p' r Hlt. lia. }
  assert (forall r, r ∈ one_call -> ip r <> 2%nat) as Habsent.
  { intros r Hr. apply list_elem_of_singleton in Hr. by subst. }
  destruct (attending_queue_counts 2%nat "InfoB" 2 d_zero one_call)
    as (Hreg & _ & Hno & _).
  destruct (attending_queue_counts 1%nat "InfoA" 1 d_zero one_call)
    as (_ & Hclose & _).
  split; [split; [reflexivity | apply Hreg; reflexivity]|].
  split; [split; [discriminate | split; [exact Hfirst|]]|].
  - apply (Hclose ltac:(discriminate) 0%nat _ Hfirst).
  - split; [exact Habsent | exact (Hno Habsent)].
Defined.

End QueueRuns.

(** * Further properties of the code *)

(** ** Neighbor directory: lookups and updates *)

Section NeighborLookups.

Import Neighbors.

Context {Address : Type} `{EqDecision Address}.

Implicit Types (l : NeighborHandlerList Address) (r q : Neighbor Address).

Lemma first_of_None (x : Address) l :
  first_of x l = None <-> x ∉ (ip <$> l).
Proof.
  induction l as [|r l IH]; csimpl.
  - split; [intros _; apply not_elem_of_nil | done].
  - rewrite not_elem_of_cons. destruct (decide (ip r = x)) as [Heq|Hne].
    + split; [done | intros [Hne _]; congruence].
    + rewrite IH. split; [by split | by intros [_ ?]].
Qed.


(** The search loop followed by the dereference, from any position. *)
Lemma deref_seek (x : Address) (pre : NeighborHandlerList Address) l :
  deref (pre ++ l) (seek x l (length pre)) = found_or_fault (first_of x l).
Proof.
  revert pre. induction l as [|r l IH]; intros pre; simpl.
  - unfold deref. rewrite lookup_ge_None_2; [done|]. rewrite length_app. simpl. lia.
  - destruct (decide (ip r = x)) as [Heq|Hne].
    + unfold deref. by rewrite list_lookup_middle.
    + specialize (IH (pre ++ [r])).
      rewrite <- app_assoc, length_app, Nat.add_1_r in IH. exact IH.
Qed.

Lemma lookups_first_of (x : Address) l :
  IsAliveNeighbor x l = outcome_map around (found_or_fault (first_of x l)) /\
  GetNeighborTrust x l = outcome_map trust (found_or_fault (first_of x l)) /\
  GetNeighborCompetence x l
    = outcome_map competence (found_or_fault (first_of x l)) /\
  GetNeighborInterests x l
    = outcome_map interests (found_or_fault (first_of x l)).
Proof.
  unfold IsAliveNeighbor, GetNeighborTrust, GetNeighborCompetence,
    GetNeighborInterests.
  pose proof (deref_seek x [] l) as Hseek. simpl in Hseek.
  by rewrite Hseek.
Qed.

Lemma IsAlreadyNeighbor_first_of (x : Address) l :
  IsAlreadyNeighbor x l = bool_decide (is_Some (first_of x l)).
Proof.
  destruct (IsAlreadyNeighbor x l) eqn:Hx; symmetry.
  - apply bool_decide_eq_true. apply IsAlreadyNeighbor_true in Hx.
    destruct (first_of x l) eqn:Hf; [by eexists|].
    by apply first_of_None in Hf.
  - apply bool_decide_eq_false. apply IsAlreadyNeighbor_false in Hx.
    apply first_of_None in Hx. rewrite Hx. by intros [? ?].
Qed.

(** Two directories that agree on the first record of [x] agree on
    everything the code can be asked about [x]. *)
Lemma same_first_same_answers (x : Address) l (k : NeighborHandlerList Address) :
  first_of x k = first_of x l ->
  IsAlreadyNeighbor x k = IsAlreadyNeighbor x l /\
  IsAliveNeighbor x k = IsAliveNeighbor x l /\
  GetNeighborTrust x k = GetNeighborTrust x l /\
  GetNeighborCompetence x k = GetNeighborCompetence x l /\
  GetNeighborInterests x k = GetNeighborInterests x l.
Proof.
  intros Hsame. rewrite !IsAlreadyNeighbor_first_of, Hsame.
  destruct (lookups_first_of x k) as (-> & -> & -> & ->).
  destruct (lookups_first_of x l) as (-> & -> & -> & ->).
  by rewrite Hsame.
Qed.

(** X1.  For an address without a record the four lookups dereference
    [end ()]: each of them faults. *)
Theorem lookups_of_unknown_neighbor_fault (ip0 : Address) l :
  IsAlreadyNeighbor ip0 l = false ->
  IsAliveNeighbor ip0 l = Fault /\
  GetNeighborTrust ip0 l = Fault /\
  GetNeighborCompetence ip0 l = Fault /\
  GetNeighborInterests ip0 l = Fault.
Proof.
  intros Hno. apply IsAlreadyNeighbor_false, first_of_None in Hno.
  destruct (lookups_first_of ip0 l) as (-> & -> & -> & ->).
  by rewrite Hno.
Qed.


Lemma erase_first_delete (ip0 : Address) l (p : nat) r :
  first_record ip0 l p r -> erase_first ip0 l = delete p l.
Proof.
  revert p. induction l as [|r0 l IH]; intros p (Hp & Hip & Hfirst).
  - by rewrite lookup_nil in Hp.
  - simpl. destruct p as [|p]; simpl in Hp.
    + injection Hp as ->. by destruct (decide (ip r = ip0)).
    + destruct (decide (ip r0 = ip0)) as [Heq|Hne].
      * destruct (Hfirst 0%nat r0); [lia | done | done].
      * simpl. f_equal. apply IH. repeat split; [done..|].
        intros p' r' Hlt Hr'. apply (Hfirst (S p') r'); [lia | done].
Qed.

Lemma erase_first_other (ip0 x : Address) l :
  x <> ip0 -> first_of x (erase_first ip0 l) = first_of x l.
Proof.
  intros Hne. induction l as [|r l IH]; simpl; [done|].
  destruct (decide (ip r = ip0)) as [Hr|Hr]; simpl.
  - destruct (decide (ip r = x)); [congruence | done].
  - destruct (decide (ip r = x)); [done | exact IH].
Qed.

Lemma erase_first_gone (ip0 : Address) l :
  NoDup (ip <$> l) -> ip0 ∉ (ip <$> erase_first ip0 l).
Proof.
  induction l as [|r l IH]; csimpl; [intros _; apply not_elem_of_nil|].
  rewrite NoDup_cons. intros [Hnot Hnd].
  destruct (decide (ip r = ip0)) as [<-|Hne]; [done|].
  csimpl. rewrite not_elem_of_cons. split; [congruence | by apply IH].
Qed.

(** X3.  [UnregisterNeighbor] of a registered address erases its first
    record and nothing else, so the address list loses that one entry;
    when the directory held one record per address, the address is no
    longer a neighbor afterwards. *)
Theorem UnregisterNeighbor_erases_first (ip0 : Address) l :
  IsAlreadyNeighbor ip0 l = true ->
  exists (p : nat) r,
    first_record ip0 l p r /\
    UnregisterNeighbor ip0 l = delete p l /\
    GetNeighborIpList (UnregisterNeighbor ip0 l)
      = delete p (GetNeighborIpList l) /\
    (NoDup (GetNeighborIpList l) ->
       IsAlreadyNeighbor ip0 (UnregisterNeighbor ip0 l) = false).
Proof.
  intros Hin. pose proof Hin as Hin'. apply IsAlreadyNeighbor_true in Hin'.
  destruct (seek_present ip0 l 0 Hin') as (p & r & _ & Hrec).
  assert (UnregisterNeighbor ip0 l = delete p l) as Hun.
  { unfold UnregisterNeighbor. rewrite Hin. by apply erase_first_delete with r. }
  exists p, r. split; [done|]. split; [done|]. split.
  - rewrite !GetNeighborIpList_fmap, Hun. apply list_fmap_delete.
  - rewrite GetNeighborIpList_fmap. intros Hnd.
    apply IsAlreadyNeighbor_false. unfold UnregisterNeighbor. rewrite Hin.
    by apply erase_first_gone.
Qed.

(** X4.  [UnregisterNeighbor] changes no answer about another address. *)
Theorem UnregisterNeighbor_other_address (ip0 x : Address) l :
  x <> ip0 ->
  IsAlreadyNeighbor x (UnregisterNeighbor ip0 l) = IsAlreadyNeighbor x l /\
  IsAliveNeighbor x (UnregisterNeighbor ip0 l) = IsAliveNeighbor x l /\
  GetNeighborTrust x (UnregisterNeighbor ip0 l) = GetNeighborTrust x l /\
  GetNeighborCompetence x (UnregisterNeighbor ip0 l)
    = GetNeighborCompetence x l /\
  GetNeighborInterests x (UnregisterNeighbor ip0 l) = GetNeighborInterests x l.
Proof.
  intros Hne. apply same_first_same_answers. unfold UnregisterNeighbor.
  destruct (IsAlreadyNeighbor ip0 l); [by apply erase_first_other | done].
Qed.

Lemma first_of_TurnNeighborOn (a x : Address) l :
  first_of x (TurnNeighborOn a l) =
    (fun r => if decide (a = x) then set_around true r else r) <$> first_of x l.
Proof.
  induction l as [|r l IH]; simpl; [done|].
  destruct (decide (ip r = a)) as [Hra|Hra]; simpl.
  - destruct (decide (ip r = x)) as [Hrx|Hrx]; simpl.
    + destruct (decide (a = x)); [done | congruence].
    + destruct (decide (a = x)) as [Hax|Hax]; [congruence|].
      destruct (first_of x l); simpl; done.
  - destruct (decide (ip r = x)) as [Hrx|Hrx]; simpl; [|exact IH].
    destruct (decide (a = x)); [congruence | done].
Qed.

Lemma first_of_TurnOffLiveNeighbors (x : Address) l :
  first_of x (TurnOffLiveNeighbors l) = set_around false <$> first_of x l.
Proof.
  induction l as [|r l IH]; simpl; [done|].
  destruct (decide (ip r = x)); [done | exact IH].
Qed.

(** X5.  [TurnNeighborOn] and [TurnOffLiveNeighbors] touch the [around]
    flags only: the address list, the membership test and the trust,
    competence and interests of every address are as before. *)
Theorem liveness_updates_keep_records (a x : Address) l :
  (GetNeighborIpList (TurnNeighborOn a l) = GetNeighborIpList l /\
   IsAlreadyNeighbor x (TurnNeighborOn a l) = IsAlreadyNeighbor x l /\
   GetNeighborTrust x (TurnNeighborOn a l) = GetNeighborTrust x l /\
   GetNeighborCompetence x (TurnNeighborOn a l) = GetNeighborCompetence x l /\
   GetNeighborInterests x (TurnNeighborOn a l) = GetNeighborInterests x l) /\
  (GetNeighborIpList (TurnOffLiveNeighbors l) = GetNeighborIpList l /\
   IsAlreadyNeighbor x (TurnOffLiveNeighbors l) = IsAlreadyNeighbor x l /\
   GetNeighborTrust x (TurnOffLiveNeighbors l) = GetNeighborTrust x l /\
   GetNeighborCompetence x (TurnOffLiveNeighbors l) = GetNeighborCompetence x l /\
   GetNeighborInterests x (TurnOffLiveNeighbors l) = GetNeighborInterests x l).
Proof.
  split.
  - split; [by rewrite !GetNeighborIpList_fmap, TurnNeighborOn_ips|].
    split; [apply eq_true_iff_eq; rewrite !IsAlreadyNeighbor_true;
            by rewrite TurnNeighborOn_ips|].
    destruct (lookups_first_of x (TurnNeighborOn a l)) as (_ & -> & -> & ->).
    destruct (lookups_first_of x l) as (_ & -> & -> & ->).
    rewrite first_of_TurnNeighborOn.
    destruct (first_of x l); simpl; [|done]. by destruct (decide (a = x)).
  - split; [by rewrite !GetNeighborIpList_fmap, TurnOffLiveNeighbors_ips|].
    split; [apply eq_true_iff_eq; rewrite !IsAlreadyNeighbor_true;
            by rewrite TurnOffLiveNeighbors_ips|].
    destruct (lookups_first_of x (TurnOffLiveNeighbors l)) as (_ & -> & -> & ->).
    destruct (lookups_first_of x l) as (_ & -> & -> & ->).
    rewrite first_of_TurnOffLiveNeighbors.
    by destruct (first_of x l).
Qed.

(** X6.  [IsAlreadyNeighbor] answers [true] exactly for the addresses
    that [GetNeighborIpList] lists; the list has one entry per record, in
    registration order: [RegisterNeighbor] adds its address at the end. *)
Theorem IsAlreadyNeighbor_iff_listed (ip0 x : Address) (c : string)
    (ints : list string) (t : double) l :
  (IsAlreadyNeighbor x l = true <-> x ∈ GetNeighborIpList l) /\
  length (GetNeighborIpList l) = length l /\
  GetNeighborIpList (RegisterNeighbor ip0 c ints t l)
    = GetNeighborIpList l ++ [ip0].
Proof.
  rewrite !GetNeighborIpList_fmap. split; [apply IsAlreadyNeighbor_true|].
  split; [apply length_fmap|]. unfold RegisterNeighbor. by rewrite fmap_app.
Qed.

(** X11.  While the directory holds at most 2^31 - 1 records,
    [GetNNeighbors] is the number of addresses listed, and it is 0 exactly
    when [IsThereAnyNeighbor] answers [false]; [IsThereAnyNeighbor] is
    [true] right after a registration. *)
Theorem GetNNeighbors_counts (ip0 : Address) (c : string)
    (ints : list string) (t : double) l :
  Z.of_nat (length l) <= INT_MAX ->
  GetNNeighbors l = Z.of_nat (length (GetNeighborIpList l)) /\
  (GetNNeighbors l = 0 <-> IsThereAnyNeighbor l = false) /\
  IsThereAnyNeighbor (RegisterNeighbor ip0 c ints t l) = true.
Proof.
  intros Hlen. unfold GetNNeighbors. rewrite to_int_small by lia.
  rewrite GetNeighborIpList_fmap, length_fmap. split; [done|]. split.
  - destruct l; simpl; split; (done || lia).
  - unfold RegisterNeighbor. by destruct l.
Qed.

End NeighborLookups.

(** ** Neighbor directory: selection and discovery rounds *)

Section NeighborRounds.

Import Neighbors.

Context {Address : Type} `{EqDecision Address}.

Implicit Types (l : NeighborHandlerList Address) (r q : Neighbor Address).
Implicit Types (label : string) (st : selection).

Lemma scan_neighbors_gotTrust label (rest : NeighborHandlerList Address)
    (it : nat) st :
  gotTrust st = true -> gotTrust (scan_neighbors label rest it st) = true.
Proof.
  revert it st. induction rest as [|r rest IH]; intros it st Hgot; simpl; [done|].
  apply IH. destruct (String.eqb (competence r) label); [|done].
  by destruct (d_gt (trust r) (sel_trust st)).
Qed.

(** A scan that ends without a selection has changed nothing. *)
Lemma scan_neighbors_nothing label (rest : NeighborHandlerList Address)
    (it : nat) st :
  gotTrust (scan_neighbors label rest it st) = false ->
  scan_neighbors label rest it st = st.
Proof.
  revert it st. induction rest as [|r rest IH]; intros it st Hgot; simpl in *;
    [done|].
  destruct (String.eqb (competence r) label); [|by apply IH].
  destruct (d_gt (trust r) (sel_trust st)); [|by apply IH].
  rewrite scan_neighbors_gotTrust in Hgot by done. discriminate.
Qed.

(** Every tier is entered with the initial locals; the loop is left by
    [break] with the selection of one label of the list, or otherwise with
    the initial locals. *)
Lemma tier_loop_result (fuel : nat) (competences : list string) l (i : Z)
    (e : loop_exit) st :
  tier_loop fuel competences l i selection_init = Some (e, st) ->
  (e = ByBreak /\ gotTrust st = true /\
   exists label, label ∈ competences /\
                 st = scan_neighbors label l 0 selection_init) \/
  (e <> ByBreak /\ st = selection_init).
Proof.
  revert i. induction fuel as [|fuel IH]; intros i; simpl; [done|].
  destruct (i =? Z.of_nat (length competences)).
  { intros [= <- <-]. by right. }
  destruct (competences !! Z.to_nat i) as [label|] eqn:Hlabel.
  2: { intros [= <- <-]. by right. }
  destruct (gotTrust (scan_neighbors label l 0 selection_init)) eqn:Hgot.
  - intros [= <- <-]. left. split; [done|]. split; [done|].
    exists label. split; [by eapply list_elem_of_lookup_2 | done].
  - rewrite (scan_neighbors_nothing _ _ _ _ Hgot). apply IH.
Qed.

Lemma tier_loop_exhausts (competences : list string) l :
  (length competences < 256)%nat ->
  (forall lab, lab ∈ competences -> ~ qualifies lab l) ->
  forall (d j fuel : nat), (j + d)%nat = length competences -> (d < fuel)%nat ->
    tier_loop fuel competences l (Z.of_nat j) selection_init
      = Some (ByExhaustion, selection_init).
Proof.
  intros Hlen Hnone. induction d as [|d IH]; intros j fuel Hjd Hfuel;
    (destruct fuel as [|fuel]; [lia|]); simpl.
  - destruct (Z.eqb_spec (Z.of_nat j) (Z.of_nat (length competences))); [done | lia].
  - destruct (Z.eqb_spec (Z.of_nat j) (Z.of_nat (length competences))); [lia|].
    rewrite Nat2Z.id.
    destruct (lookup_lt_is_Some_2 competences j) as [lab Hlab]; [lia|].
    rewrite Hlab, not_qualifies_scan
      by (apply Hnone; by eapply list_elem_of_lookup_2).
    simpl. rewrite uint8_incr_small by lia. apply IH; lia.
Qed.

(** X7.  When no label of a list of fewer than 256 labels has a record
    with trust above 0 (an empty directory, an empty list, trusts that
    are all 0, negative or NaN), [GetPlusTrustNeighbor] reads the
    iterator [n] that was never assigned: it faults. *)
Theorem GetPlusTrustNeighbor_no_candidate (competences : list string) l :
  (length competences < 256)%nat ->
  (forall lab, lab ∈ competences -> ~ qualifies lab l) ->
  forall fuel : nat, (length competences < fuel)%nat ->
    GetPlusTrustNeighbor fuel competences l = Some Fault.
Proof.
  intros Hlen Hnone fuel Hfuel. unfold GetPlusTrustNeighbor.
  pose proof (tier_loop_exhausts competences l Hlen Hnone
                (length competences) 0%nat fuel eq_refl Hfuel) as Hloop.
  change (Z.of_nat 0) with 0 in Hloop. by rewrite Hloop.
Qed.

(** X8.  Whatever [GetPlusTrustNeighbor] returns is the address of a
    record of the directory whose competence is in the list and whose
    trust is above 0: never an address that is not a neighbor. *)
Theorem GetPlusTrustNeighbor_returns_neighbor (fuel : nat)
    (competences : list string) l (a : Address) :
  GetPlusTrustNeighbor fuel competences l = Some (Returns a) ->
  IsAlreadyNeighbor a l = true /\
  exists r, r ∈ l /\ ip r = a /\ competence r ∈ competences /\
            d_gt (trust r) d_zero = true.
Proof.
  unfold GetPlusTrustNeighbor.
  destruct (tier_loop fuel competences l 0 selection_init) as [[e st]|] eqn:Hloop;
    [|done].
  apply tier_loop_result in Hloop
    as [(-> & Hgot & label & Hlabel & ->)|(Hne & ->)].
  - pose proof (scan_inv_loop label l [] selection_init (scan_inv_init label l))
      as (_ & _ & _ & Hsome). simpl in Hsome.
    destruct (Hsome Hgot) as (p & r & Hn & _ & Hp & Hc & _ & Hz & _).
    rewrite Hn. unfold deref. rewrite Hp. simpl. intros [= <-].
    assert (r ∈ l) as Hr by (by eapply list_elem_of_lookup_2).
    split.
    + apply IsAlreadyNeighbor_true, list_elem_of_fmap. by exists r.
    + exists r. by rewrite Hc.
  - destruct e; done.
Qed.

(** With one record per address, [TurnNeighborOn] sets the flag of the
    records of the address, and of no other. *)
Lemma TurnNeighborOn_NoDup (a : Address) l :
  NoDup (ip <$> l) ->
  TurnNeighborOn a l =
    (fun r => if decide (ip r = a) then set_around true r else r) <$> l.
Proof.
  induction l as [|r l IH]; csimpl; [done|].
  rewrite NoDup_cons. intros [Hnot Hnd].
  destruct (decide (ip r = a)) as [Hra|Hra]; [|by rewrite IH].
  f_equal. symmetry. rewrite <- (list_fmap_id l) at 2.
  apply list_fmap_ext. intros i q Hq. simpl.
  destruct (decide (ip q = a)) as [Hqa|Hqa]; [|done].
  destruct Hnot. rewrite Hra, <- Hqa. apply list_elem_of_fmap. exists q.
  split; [done | by eapply list_elem_of_lookup_2].
Qed.

Lemma TurnNeighborsOn_NoDup (confirmed : list Address) l :
  NoDup (ip <$> l) ->
  TurnNeighborsOn confirmed l =
    (fun r => if bool_decide (ip r ∈ confirmed) then set_around true r else r)
      <$> l.
Proof.
  revert l. induction confirmed as [|a confirmed IH]; intros l Hnd.
  - unfold TurnNeighborsOn. simpl. rewrite <- (list_fmap_id l) at 1.
    apply list_fmap_ext. intros i q Hq. done.
  - unfold TurnNeighborsOn. simpl. fold (TurnNeighborsOn confirmed (TurnNeighborOn a l)).
    rewrite IH by (by rewrite TurnNeighborOn_ips).
    rewrite TurnNeighborOn_NoDup by done. rewrite <- list_fmap_compose.
    apply list_fmap_ext. intros i q Hq. simpl.
    destruct (decide (ip q = a)) as [<-|Hqa]; simpl.
    + rewrite (bool_decide_eq_true_2 (ip q ∈ ip q :: confirmed))
        by apply list_elem_of_here.
      by destruct (bool_decide (ip q ∈ confirmed)).
    + assert (bool_decide (ip q ∈ a :: confirmed)
              = bool_decide (ip q ∈ confirmed)) as ->; [|done].
      apply bool_decide_ext. rewrite elem_of_cons.
      split; [intros [Heq|Hin]; [congruence | done] | by right].
Qed.

(** A stale record stays in the list, stale, when another address is
    confirmed. *)
Lemma TurnNeighborOn_keeps_stale (a : Address) l r :
  r ∈ l -> ip r <> a -> r ∈ TurnNeighborOn a l.
Proof.
  intros Hr Hne. induction l as [|r0 l IH]; simpl; [done|].
  apply elem_of_cons in Hr as [->|Hr].
  - destruct (decide (ip r0 = a)); [done | apply list_elem_of_here].
  - destruct (decide (ip r0 = a)); apply list_elem_of_further; [done | by apply IH].
Qed.

Lemma TurnNeighborsOn_keeps_stale (confirmed : list Address) l r :
  r ∈ l -> ip r ∉ confirmed -> r ∈ TurnNeighborsOn confirmed l.
Proof.
  revert l. induction confirmed as [|a confirmed IH]; intros l Hr Hnot; [done|].
  rewrite not_elem_of_cons in Hnot. destruct Hnot as [Hne Hnot].
  unfold TurnNeighborsOn. simpl. apply IH; [|done].
  by apply TurnNeighborOn_keeps_stale.
Qed.

Lemma forallb_around_stale l r :
  r ∈ l -> around r = false -> forallb around l = false.
Proof.
  intros Hr Har. destruct (forallb around l) eqn:Hall; [|done].
  rewrite forallb_forall in Hall. rewrite <- Har. symmetry. apply Hall.
  by apply list_elem_of_In.
Qed.

(** X9.  A discovery round: [TurnOffLiveNeighbors], [TurnNeighborOn] for
    the addresses that answered, [UnregisterOffNeighbors].  On a directory
    with one record per address of which every address answered, it
    returns the directory with every record marked around and the other
    fields untouched.  When a record's address did not answer, the record
    is still stale when [UnregisterOffNeighbors] runs, and the round
    faults. *)
Theorem discovery_round (confirmed : list Address) l :
  (NoDup (GetNeighborIpList l) ->
   (forall a : Address, a ∈ GetNeighborIpList l -> a ∈ confirmed) ->
   UnregisterOffNeighbors (TurnNeighborsOn confirmed (TurnOffLiveNeighbors l))
     = Some (Returns (set_around true <$> l))) /\
  (forall r, r ∈ l -> ip r ∉ confirmed ->
   UnregisterOffNeighbors (TurnNeighborsOn confirmed (TurnOffLiveNeighbors l))
     = Some Fault).
Proof.
  rewrite GetNeighborIpList_fmap. split.
  - intros Hnd Hall. rewrite UnregisterOffNeighbors_spec.
    rewrite TurnNeighborsOn_NoDup by (by rewrite TurnOffLiveNeighbors_ips).
    rewrite TurnOffLiveNeighbors_fmap, <- list_fmap_compose.
    assert ((fun r => if bool_decide (ip r ∈ confirmed)
                      then set_around true r else r) ∘ set_around false
              <$> l = set_around true <$> l) as ->.
    { apply list_fmap_ext. intros i r Hr. simpl.
      rewrite bool_decide_eq_true_2; [done|].
      apply Hall, list_elem_of_fmap. exists r.
      split; [done | by eapply list_elem_of_lookup_2]. }
    assert (forallb around (set_around true <$> l) = true) as ->; [|done].
    clear. induction l as [|r l IH]; csimpl; [done | exact IH].
  - intros r Hr Hnot. rewrite UnregisterOffNeighbors_spec.
    rewrite (forallb_around_stale _ (set_around false r)); [done | | done].
    apply TurnNeighborsOn_keeps_stale; [|done].
    rewrite TurnOffLiveNeighbors_fmap. apply list_elem_of_fmap. by exists r.
Qed.

(** X10.  Whenever [UnregisterOffNeighbors] returns, the list it returns
    is the list it was given: every address in it is alive, and a second
    [UnregisterOffNeighbors] returns it again. *)
Theorem UnregisterOffNeighbors_leaves_alive l (l' : NeighborHandlerList Address) :
  UnregisterOffNeighbors l = Some (Returns l') ->
  l' = l /\
  (forall x : Address, IsAlreadyNeighbor x l' = true ->
     IsAliveNeighbor x l' = Returns true) /\
  UnregisterOffNeighbors l' = Some (Returns l').
Proof.
  intros Hret. pose proof Hret as Hret'.
  apply UnregisterOffNeighbors_returns in Hret' as [-> Hall].
  split; [done|]. split; [|done].
  intros x Hx. apply IsAlreadyNeighbor_true in Hx.
  destruct (seek_present x _ 0 Hx) as (p & r & _ & Hrec).
  destruct (lookups_first_record x _ p r Hrec) as (-> & _).
  destruct Hrec as (Hp & _). apply list_elem_of_lookup_2 in Hp.
  rewrite forallb_forall in Hall. f_equal. apply Hall.
  by apply list_elem_of_In.
Qed.

End NeighborRounds.

(** ** Attending queue: lookups and address list *)

Section AttendingLookups.

Import Attendings.

Context {Address : Type} `{EqDecision Address}.

Implicit Types (q : AttendingHandlerList Address) (r : Attending Address).

Lemma attending_seek_first (ip0 : Address) q (p i : nat) r :
  first_attending ip0 q p r -> seek ip0 q i = (i + p)%nat.
Proof.
  revert p i. induction q as [|r0 q IH]; intros p i (Hp & Hip & Hfirst).
  - by rewrite lookup_nil in Hp.
  - simpl. destruct p as [|p]; simpl in Hp.
    + injection Hp as ->. destruct (decide (ip r = ip0)); [lia | done].
    + destruct (decide (ip r0 = ip0)) as [Heq|Hne].
      * destruct (Hfirst 0%nat r0); [lia | done | done].
      * rewrite (IH p (S i)); [lia|]. repeat split; [done..|].
        intros p' r' Hlt Hr'. apply (Hfirst (S p') r'); [lia | done].
Qed.

Lemma attending_seek_absent (ip0 : Address) q (i : nat) :
  (forall r, r ∈ q -> ip r <> ip0) -> seek ip0 q i = (i + length q)%nat.
Proof.
  revert i. induction q as [|r q IH]; intros i Hno; simpl; [lia|].
  destruct (decide (ip r = ip0)) as [Heq|Hne].
  - destruct (Hno r); [apply list_elem_of_here | done].
  - rewrite IH; [lia|]. intros r' Hr'. apply Hno. by apply list_elem_of_further.
Qed.

Lemma first_attending_app (ip0 : Address) q (k : AttendingHandlerList Address)
    (p : nat) r :
  first_attending ip0 q p r -> first_attending ip0 (q ++ k) p r.
Proof.
  intros (Hp & Hip & Hfirst).
  assert ((p < length q)%nat) as Hlt by (by eapply lookup_lt_Some).
  repeat split; [by apply lookup_app_l_Some | done |].
  intros p' r' Hlt' Hr'. rewrite lookup_app_l in Hr' by lia.
  by apply (Hfirst p' r').
Qed.

Lemma attending_lookups_at (ip0 : Address) q (p : nat) r :
  first_attending ip0 q p r ->
  GetAttendingCriticalData ip0 q = Returns (criticalData r) /\
  GetAttendingPriority ip0 q = Returns (attendingPriority r).
Proof.
  intros Hrec. unfold GetAttendingCriticalData, GetAttendingPriority, deref.
  rewrite (attending_seek_first ip0 q p 0 r Hrec), Nat.add_0_l.
  destruct Hrec as (Hp & _). by rewrite Hp.
Qed.

(** X13.  [GetAttendingCriticalData] and [GetAttendingPriority] read the
    first record of the address, and go on reading it after further
    [RegisterAttendingCall]s, also for the same address: a second call
    for an address does not replace the data of the first. *)
Theorem attending_lookups_read_first (ip0 ip1 : Address) (criticalData1 : string)
    (priority1 : Z) (time1 : double) q (p : nat) r :
  first_attending ip0 q p r ->
  GetAttendingCriticalData ip0 q = Returns (criticalData r) /\
  GetAttendingPriority ip0 q = Returns (attendingPriority r) /\
  GetAttendingCriticalData ip0
    (RegisterAttendingCall ip1 criticalData1 priority1 time1 q)
    = Returns (criticalData r) /\
  GetAttendingPriority ip0
    (RegisterAttendingCall ip1 criticalData1 priority1 time1 q)
    = Returns (attendingPriority r).
Proof.
  intros Hrec.
  destruct (attending_lookups_at ip0 q p r Hrec) as [Hd Hp].
  split; [done|]. split; [done|].
  apply (attending_lookups_at ip0 _ p r). unfold RegisterAttendingCall.
  by apply first_attending_app.
Qed.

(** X14.  Right after [RegisterAttendingCall] for an address that had no
    record, the two lookups give back the critical data and the priority
    of the call. *)
Theorem attending_round_trip (ip0 : Address) (criticalData0 : string)
    (priority : Z) (attendingCallTime : double) q :
  (forall r, r ∈ q -> ip r <> ip0) ->
  GetAttendingCriticalData ip0
    (RegisterAttendingCall ip0 criticalData0 priority attendingCallTime q)
    = Returns criticalData0 /\
  GetAttendingPriority ip0
    (RegisterAttendingCall ip0 criticalData0 priority attendingCallTime q)
    = Returns priority.
Proof.
  intros Hno.
  apply (attending_lookups_at ip0 _ (length q)
           (mkAttending ip0 criticalData0 attendingCallTime priority)).
  unfold RegisterAttendingCall. repeat split.
  - by rewrite list_lookup_middle.
  - intros p' r' Hlt Hr'. rewrite lookup_app_l in Hr' by done.
    apply Hno. by eapply list_elem_of_lookup_2.
Qed.

(** X15.  For an address without a record, and so on the empty queue and
    after the only call for the address was closed, the two lookups
    dereference [end ()]: they fault. *)
Theorem attending_lookups_absent_fault (ip0 : Address) q :
  (forall r, r ∈ q -> ip r <> ip0) ->
  GetAttendingCriticalData ip0 q = Fault /\
  GetAttendingPriority ip0 q = Fault.
Proof.
  intros Hno. unfold GetAttendingCriticalData, GetAttendingPriority, deref.
  rewrite (attending_seek_absent ip0 q 0 Hno), Nat.add_0_l.
  by rewrite lookup_ge_None_2.
Qed.

Lemma GetAttendingIpList_loop_app q (acc : list Address) :
  GetAttendingIpList_loop q acc = acc ++ (ip <$> q).
Proof.
  revert acc. induction q as [|r q IH]; intros acc; csimpl.
  - by rewrite app_nil_r.
  - rewrite IH. by rewrite <- app_assoc.
Qed.

Lemma GetAttendingIpList_fmap q : GetAttendingIpList q = ip <$> q.
Proof. unfold GetAttendingIpList. by rewrite GetAttendingIpList_loop_app. Qed.

(** X16.  [GetAttendingIpList] lists one address per pending call, in the
    order of the calls: [RegisterAttendingCall] adds its address at the
    end, and [CloseAttending], on a queue of at most 2^31 - 1 calls,
    takes out the first occurrence of its address and leaves the others
    in place. *)
Theorem GetAttendingIpList_follows_queue (ip0 : Address) (criticalData0 : string)
    (priority : Z) (attendingCallTime : double) q :
  length (GetAttendingIpList q) = length q /\
  GetAttendingIpList
    (RegisterAttendingCall ip0 criticalData0 priority attendingCallTime q)
    = GetAttendingIpList q ++ [ip0] /\
  (Z.of_nat (length q) <= INT_MAX ->
   forall (p : nat) r, first_attending ip0 q p r ->
     GetAttendingIpList (CloseAttending ip0 q)
       = delete p (GetAttendingIpList q) /\
     GetAttendingIpList q !! p = Some ip0 /\
     forall p' : nat, (p' < p)%nat -> GetAttendingIpList q !! p' <> Some ip0).
Proof.
  rewrite !GetAttendingIpList_fmap. split; [apply length_fmap|].
  split; [unfold RegisterAttendingCall; by rewrite fmap_app|].
  intros Hlen p r Hrec.
  assert ((p < length q)%nat) as Hp
    by (destruct Hrec as (Hp & _); by eapply lookup_lt_Some).
  assert (CloseAttending ip0 q = delete p q) as ->.
  { unfold CloseAttending. rewrite GetNPendingAttending_small by done.
    destruct (Z.eqb_spec (Z.of_nat (length q)) 0); [lia|]. simpl.
    by apply attending_erase_first with r. }
  rewrite list_fmap_delete.
  split; [done|]. destruct Hrec as (Hp' & Hip & Hfirst).
  split; [by rewrite list_lookup_fmap, Hp'; simpl; rewrite Hip|].
  intros p' Hlt. rewrite list_lookup_fmap.
  destruct (q !! p') as [r'|] eqn:Hr'; simpl; [|done].
  intros [= Heq]. by apply (Hfirst p' r').
Qed.

End AttendingLookups.

(** ** Protocol handler registry: the two receive paths, registration *)

Section HandlerPaths.

Import Handlers.

Context {NetDevice Packet Address PacketType ProtocolHandler : Type}.
Context `{EqDecision NetDevice} `{EqDecision ProtocolHandler}.
Context (GetAddress : NetDevice -> Address) (PacketType_0 : PacketType).

Implicit Types (e : ProtocolHandlerEntry NetDevice ProtocolHandler).
Implicit Types (node : Node NetDevice ProtocolHandler).

Lemma ReceiveFromDevice_spec (device0 : Ptr NetDevice) (packet : Packet)
    (protocol0 : Z) (from to : Address) (packetType : PacketType)
    (promiscuous0 : bool) node :
  ReceiveFromDevice device0 packet protocol0 from to packetType promiscuous0 node
  = (negb (vector_empty
             (filter (entry_matches device0 protocol0 promiscuous0)
                (m_handlers node))),
     invocation_of device0 packet protocol0 from to packetType
       <$> filter (entry_matches device0 protocol0 promiscuous0)
             (m_handlers node)).
Proof. unfold ReceiveFromDevice. by rewrite ReceiveFromDevice_loop_spec. Qed.

Lemma invocation_origin (device0 : Ptr NetDevice) (packet : Packet)
    (protocol0 : Z) (from to : Address) (packetType : PacketType)
    (promiscuous0 : bool) node
    (inv : invocation NetDevice Packet Address PacketType ProtocolHandler) :
  inv ∈ (ReceiveFromDevice device0 packet protocol0 from to packetType
           promiscuous0 node).2 ->
  inv_to inv = to /\ inv_packetType inv = packetType /\
  exists e, e ∈ m_handlers node /\ handler e = inv_handler inv /\
            promiscuous e = promiscuous0.
Proof.
  rewrite ReceiveFromDevice_spec. simpl.
  intros (e & -> & He)%list_elem_of_fmap.
  apply list_elem_of_filter in He as [(_ & _ & Hm) He].
  split; [done|]. split; [done|]. by exists e.
Qed.

(** X18.  [PromiscReceiveFromDevice] invokes handlers of promiscuous
    entries only, [NonPromiscReceiveFromDevice] handlers of
    non-promiscuous entries only, and it gives them the address of the
    device as receiver and the packet type 0; without a device it faults
    before any handler is invoked. *)
Theorem receive_paths_keep_apart (device0 : Ptr NetDevice) (packet : Packet)
    (protocol0 : Z) (from to : Address) (packetType : PacketType) node :
  (forall inv,
     inv ∈ (PromiscReceiveFromDevice device0 packet protocol0 from to
              packetType node).2 ->
     exists e, e ∈ m_handlers node /\ handler e = inv_handler inv /\
               promiscuous e = true) /\
  (forall dev result inv,
     NonPromiscReceiveFromDevice GetAddress PacketType_0 (Some dev) packet
       protocol0 from node = Returns result ->
     inv ∈ result.2 ->
     inv_to inv = GetAddress dev /\ inv_packetType inv = PacketType_0 /\
     exists e, e ∈ m_handlers node /\ handler e = inv_handler inv /\
               promiscuous e = false) /\
  NonPromiscReceiveFromDevice GetAddress PacketType_0 None packet protocol0
    from node = Fault.
Proof.
  split; [|split; [|done]].
  - intros inv Hinv. by apply invocation_origin in Hinv as (_ & _ & He).
  - intros dev result inv [= <-] Hinv. by apply invocation_origin in Hinv.
Qed.

(** X19.  Registering a handler adds at most one invocation to a
    dispatch, after all the others: a dispatch that the new entry accepts
    makes the former invocations, then the new handler's, and returns
    [true]; any other dispatch is as before the registration. *)
Theorem RegisterProtocolHandler_then_dispatch (h : ProtocolHandler)
    (protocolType : Z) (device1 : Ptr NetDevice) (promiscuous1 : bool)
    (device0 : Ptr NetDevice) (packet : Packet) (protocol0 : Z)
    (from to : Address) (packetType : PacketType) (promiscuous0 : bool) node :
  ReceiveFromDevice device0 packet protocol0 from to packetType promiscuous0
    (RegisterProtocolHandler h protocolType device1 promiscuous1 node)
  = if decide (entry_matches device0 protocol0 promiscuous0
                 (mkEntry h device1 protocolType promiscuous1))
    then (true,
          (ReceiveFromDevice device0 packet protocol0 from to packetType
             promiscuous0 node).2
          ++ [mkInvocation h device0 packet protocol0 from to packetType])
    else ReceiveFromDevice device0 packet protocol0 from to packetType
           promiscuous0 node.
Proof.
  rewrite !ReceiveFromDevice_spec. simpl. rewrite filter_app.
  destruct (decide (entry_matches device0 protocol0 promiscuous0
                      (mkEntry h device1 protocolType promiscuous1)))
    as [Hm|Hm].
  - rewrite (filter_cons_True _ _ [] Hm), filter_nil, fmap_app. f_equal.
    by destruct (filter _ (m_handlers node)).
  - rewrite (filter_cons_False _ _ [] Hm), filter_nil. by rewrite app_nil_r.
Qed.

Lemma erase_handler_last (h : ProtocolHandler)
    (hs : ProtocolHandlerList NetDevice ProtocolHandler) e :
  (forall e', e' ∈ hs -> handler e' <> h) -> handler e = h ->
  erase_handler h (hs ++ [e]) = hs.
Proof.
  intros Hno He. induction hs as [|e0 hs IH]; simpl.
  - by destruct (decide (handler e = h)).
  - destruct (decide (handler e0 = h)) as [Heq|Hne].
    + destruct (Hno e0); [apply list_elem_of_here | done].
    + rewrite IH; [done|]. intros e' He'. apply Hno. by apply list_elem_of_further.
Qed.

(** X20.  Unregistering a handler right after it was registered, when
    no older entry holds that handler, gives back the former handler
    list, so every dispatch is as before the registration; but the
    promiscuous receive callbacks that the registration set on devices
    stay set. *)
Theorem UnregisterProtocolHandler_undoes_registration (h : ProtocolHandler)
    (protocolType : Z) (device1 : Ptr NetDevice) (promiscuous1 : bool) node :
  (forall e, e ∈ m_handlers node -> handler e <> h) ->
  let registered_node :=
    RegisterProtocolHandler h protocolType device1 promiscuous1 node in
  m_handlers (UnregisterProtocolHandler h registered_node) = m_handlers node /\
  (forall (device0 : Ptr NetDevice) (packet : Packet) (protocol0 : Z)
          (from to : Address) (packetType : PacketType) (promiscuous0 : bool),
     ReceiveFromDevice device0 packet protocol0 from to packetType
       promiscuous0 (UnregisterProtocolHandler h registered_node)
     = ReceiveFromDevice device0 packet protocol0 from to packetType
         promiscuous0 node) /\
  promisc_callbacks (UnregisterProtocolHandler h registered_node)
    = promisc_callbacks registered_node /\
  (promiscuous1 = true ->
     forall dev, (device1 = Some dev \/ (device1 = None /\ dev ∈ m_devices node)) ->
       dev ∈ promisc_callbacks (UnregisterProtocolHandler h registered_node)).
Proof.
  intros Hno registered_node.
  assert (m_handlers (UnregisterProtocolHandler h registered_node)
          = m_handlers node) as Hsame.
  { simpl. by apply erase_handler_last. }
  split; [done|]. split; [|split; [done|]].
  - intros. unfold ReceiveFromDevice. by rewrite Hsame.
  - intros -> dev Hdev. simpl.
    destruct Hdev as [->|[-> Hin]]; apply elem_of_app; right;
      [apply list_elem_of_here | done].
Qed.

End HandlerPaths.

(** ** Device list and device addition listeners *)

Section DeviceFacts.

Import Devices.

Context {NetDevice DeviceAdditionListener : Type}.
Context `{EqDecision DeviceAdditionListener}.

Implicit Types (node : Node NetDevice DeviceAdditionListener).
Implicit Types (es : list (effect NetDevice DeviceAdditionListener)).
Implicit Types (listener : DeviceAdditionListener) (dev : NetDevice).

Lemma to_uint32_small (x : Z) : 0 <= x < 4294967296 -> to_uint32 x = x.
Proof. intros Hx. unfold to_uint32. by rewrite Z.mod_small. Qed.

Lemma notifications_app listener es es' :
  notifications listener (es ++ es')
  = notifications listener es ++ notifications listener es'.
Proof.
  induction es as [|[] es IH]; simpl; try done.
  destruct (decide (listener0 = listener)); [by rewrite IH | done].
Qed.

Lemma NotifyDeviceAdded_loop_app dev (rest : list DeviceAdditionListener) es :
  NotifyDeviceAdded_loop dev rest es
  = es ++ ((fun i => ListenerCall i dev) <$> rest).
Proof.
  revert es. induction rest as [|i rest IH]; intros es; csimpl.
  - by rewrite app_nil_r.
  - rewrite IH. by rewrite <- app_assoc.
Qed.

Lemma notify_existing_app listener (rest : list NetDevice) es :
  notify_existing listener rest es = es ++ (ListenerCall listener <$> rest).
Proof.
  revert es. induction rest as [|i rest IH]; intros es; csimpl.
  - by rewrite app_nil_r.
  - rewrite IH. by rewrite <- app_assoc.
Qed.

(** One device added: a listener is called once per time it stands in
    the listener list. *)
Lemma notifications_of_added listener dev (rest : list DeviceAdditionListener) :
  notifications listener ((fun i => ListenerCall i dev) <$> rest)
  = replicate (length (filter (fun i => i = listener) rest)) dev.
Proof.
  induction rest as [|i rest IH]; csimpl; [done|].
  destruct (decide (i = listener)) as [Heq|Hne].
  - rewrite filter_cons_True by done. simpl. by rewrite IH.
  - by rewrite filter_cons_False.
Qed.

Lemma notifications_of_existing listener (l : DeviceAdditionListener)
    (rest : list NetDevice) :
  notifications listener (ListenerCall l <$> rest)
  = if decide (l = listener) then rest else [].
Proof.
  induction rest as [|i rest IH]; csimpl; [by destruct (decide (l = listener))|].
  rewrite IH. by destruct (decide (l = listener)).
Qed.

Lemma notifications_AddDevice_at listener dev node :
  notifications listener (effects (AddDevice_at dev node).2)
  = notifications listener (effects node)
    ++ replicate
         (length (filter (fun i => i = listener)
                    (m_deviceAdditionListeners node))) dev.
Proof.
  simpl. rewrite NotifyDeviceAdded_loop_app, !notifications_app.
  rewrite notifications_of_added. simpl. by rewrite app_nil_r.
Qed.

(** X21.  On a node with fewer than 2^32 devices [AddDevice] returns the
    number of devices there were, which is the index at which [GetDevice]
    finds the new device and the interface index given to the device;
    the older devices keep their index, and an index past the new device
    makes [GetDevice] fault.  [AddDevice] of a null device faults. *)
Theorem AddDevice_round_trip dev node :
  Z.of_nat (length (m_devices node)) < 4294967296 ->
  exists node',
    AddDevice (Some dev) node
      = Returns (Z.of_nat (length (m_devices node)), node') /\
    GetNDevices node = Z.of_nat (length (m_devices node)) /\
    GetDevice (Z.of_nat (length (m_devices node))) node' = Returns dev /\
    SetIfIndex dev (Z.of_nat (length (m_devices node))) ∈ effects node' /\
    (forall j : Z, 0 <= j < Z.of_nat (length (m_devices node)) ->
       GetDevice j node' = GetDevice j node) /\
    (forall j : Z, Z.of_nat (length (m_devices node)) < j < 4294967296 ->
       GetDevice j node' = Fault) /\
    AddDevice None node = Fault.
Proof.
  intros Hlen. exists (AddDevice_at dev node).2.
  assert (to_uint32 (Z.of_nat (length (m_devices node)))
          = Z.of_nat (length (m_devices node))) as Hindex
    by (apply to_uint32_small; lia).
  split; [unfold AddDevice, AddDevice_at; by rewrite Hindex|].
  split; [done|]. split; [|split; [|split; [|split; [|done]]]].
  - unfold GetDevice, deref. rewrite Hindex, Nat2Z.id. simpl.
    by rewrite list_lookup_middle.
  - simpl. rewrite NotifyDeviceAdded_loop_app, Hindex.
    apply elem_of_app. left. apply elem_of_app. right.
    apply list_elem_of_further, list_elem_of_here.
  - intros j Hj. unfold GetDevice, deref. simpl.
    rewrite to_uint32_small by lia. by rewrite lookup_app_l by lia.
  - intros j Hj. unfold GetDevice, deref. simpl.
    rewrite to_uint32_small by lia.
    rewrite lookup_ge_None_2; [done|]. rewrite length_app. simpl. lia.
Qed.

Lemma after_device_calls_snoc
    (calls : list (device_call NetDevice DeviceAdditionListener))
    (c : device_call NetDevice DeviceAdditionListener) node :
  after_calls (calls ++ [c]) node = do_call (after_calls calls node) c.
Proof. unfold after_calls. by rewrite foldl_app. Qed.

Lemma registered_times_snoc listener
    (calls : list (device_call NetDevice DeviceAdditionListener))
    (c : device_call NetDevice DeviceAdditionListener) :
  registered_times listener (calls ++ [c])
  = (registered_times listener calls + registered_times listener [c])%nat.
Proof.
  induction calls as [|c' calls IH]; simpl; [done|].
  destruct c'; simpl; try done.
  destruct (decide (listener0 = listener)); simpl; by rewrite IH.
Qed.

Lemma erase_listener_other listener (l : DeviceAdditionListener)
    (rest : list DeviceAdditionListener) :
  l <> listener ->
  filter (fun i => i = listener) (erase_listener l rest)
  = filter (fun i => i = listener) rest.
Proof.
  intros Hne. induction rest as [|i rest IH]; simpl; [done|].
  destruct (decide (i = l)) as [->|Hil].
  - by rewrite filter_cons_False.
  - destruct (decide (i = listener)) as [Heq|Hne'].
    + rewrite !filter_cons_True by done. by rewrite IH.
    + by rewrite !filter_cons_False.
Qed.

(** What the calls keep true about one listener that is never
    unregistered. *)
Lemma listener_invariant listener
    (calls : list (device_call NetDevice DeviceAdditionListener)) :
  CallUnregisterListener listener ∉ calls ->
  length (filter (fun i => i = listener)
            (m_deviceAdditionListeners (after_calls calls fresh_node)))
    = registered_times listener calls /\
  (registered_times listener calls = 0%nat ->
     notifications listener (effects (after_calls calls fresh_node)) = []) /\
  (registered_times listener calls = 1%nat ->
     notifications listener (effects (after_calls calls fresh_node))
     = m_devices (after_calls calls fresh_node)).
Proof.
  induction calls as [|c calls IH] using rev_ind; intros Hnever.
  - repeat split; done.
  - rewrite not_elem_of_app in Hnever. destruct Hnever as [Hcalls Hc].
    destruct (IH Hcalls) as (Hcount & Hzero & Hone).
    rewrite after_device_calls_snoc, registered_times_snoc.
    destruct c as [dev|l|l]; simpl registered_times; unfold do_call.
    + rewrite Nat.add_0_r, notifications_AddDevice_at, Hcount. simpl.
      split; [done|]. split.
      * intros Ht. rewrite Ht, (Hzero Ht). done.
      * intros Ht. rewrite Ht, (Hone Ht). done.
    + unfold RegisterDeviceAdditionListener. simpl.
      rewrite notify_existing_app, notifications_app,
        notifications_of_existing, filter_app, length_app, Hcount.
      destruct (decide (l = listener)) as [->|Hne].
      * rewrite filter_cons_True by done. split; [done|].
        split; [lia|]. intros Ht. rewrite Hzero by lia. done.
      * rewrite filter_cons_False by done. simpl.
        rewrite !Nat.add_0_r, app_nil_r. done.
    + assert (l <> listener) as Hne.
      { intros ->. apply Hc, list_elem_of_here. }
      unfold UnregisterDeviceAdditionListener. simpl.
      rewrite erase_listener_other by done. rewrite Nat.add_0_r. done.
Qed.

(** X22.  Whenever devices are added and listeners registered, in any
    order: a listener that was registered once, and not unregistered, has
    been called with every device of the node, once each, in the order
    the devices were added, whether they were added before or after
    the listener was registered. *)
Theorem listener_learns_every_device listener
    (calls : list (device_call NetDevice DeviceAdditionListener)) :
  registered_times listener calls = 1%nat ->
  CallUnregisterListener listener ∉ calls ->
  notifications listener (effects (after_calls calls fresh_node))
  = m_devices (after_calls calls fresh_node).
Proof.
  intros Hone Hnever. by apply (listener_invariant listener calls Hnever).
Qed.

Lemma filter_listener_absent listener (rest : list DeviceAdditionListener) :
  listener ∉ rest -> filter (fun i => i = listener) rest = [].
Proof.
  induction rest as [|i rest IH]; [done|].
  rewrite not_elem_of_cons. intros [Hne Hnot].
  rewrite filter_cons_False by congruence. by apply IH.
Qed.

Lemma erase_listener_gone listener (rest : list DeviceAdditionListener) :
  NoDup rest -> filter (fun i => i = listener) (erase_listener listener rest) = [].
Proof.
  induction rest as [|i rest IH]; simpl; [done|].
  rewrite NoDup_cons. intros [Hnot Hnd].
  destruct (decide (i = listener)) as [->|Hne].
  - by apply filter_listener_absent.
  - rewrite filter_cons_False by done. by apply IH.
Qed.

(** X23.  Once [UnregisterDeviceAdditionListener] has removed a
    listener from a list that held each listener once, adding a device
    no longer calls it; the other listeners are called as before. *)
Theorem unregistered_listener_not_called listener dev node :
  NoDup (m_deviceAdditionListeners node) ->
  notifications listener
    (effects (AddDevice_at dev (UnregisterDeviceAdditionListener listener node)).2)
  = notifications listener (effects node) /\
  forall l : DeviceAdditionListener, l <> listener ->
    notifications l
      (effects (AddDevice_at dev (UnregisterDeviceAdditionListener listener node)).2)
    = notifications l (effects (AddDevice_at dev node).2).
Proof.
  intros Hnd. split.
  - rewrite notifications_AddDevice_at. simpl.
    rewrite erase_listener_gone by done. simpl. by rewrite app_nil_r.
  - intros l Hne. rewrite !notifications_AddDevice_at. simpl.
    by rewrite erase_listener_other.
Qed.

End DeviceFacts.

(** ** The node's own attributes *)

Section ProfileFacts.

Import Profile.

Lemma string_compare_zero (a b : string) : string_compare a b = 0 <-> a = b.
Proof.
  unfold string_compare. split.
  - destruct (String.compare a b) eqn:Hc; try discriminate.
    intros _. by apply String.compare_eq_iff.
  - intros ->. assert (String.compare b b = Eq) as ->; [|done].
    induction b as [|c b IH]; simpl; [done|].
    assert (Ascii.compare c c = Eq) as ->; [|exact IH].
    unfold Ascii.compare. apply N.compare_refl.
Qed.

Lemma not_compare_true (s t : string) : not_compare s t = true <-> s = t.
Proof. unfold not_compare. rewrite Z.eqb_eq. apply string_compare_zero. Qed.

(** X24.  [HasEqualCompetence] answers [true] exactly when its argument
    is, byte for byte, the competence last given to [SetCompetence]. *)
Theorem HasEqualCompetence_iff (competence competence' : string) (node : Node) :
  (HasEqualCompetence competence node = true <-> GetCompetence node = competence) /\
  (HasEqualCompetence competence (SetCompetence competence' node) = true
     <-> competence' = competence) /\
  GetCompetence (SetCompetence competence' node) = competence'.
Proof.
  assert (forall n : Node,
            HasEqualCompetence competence n = true <-> GetCompetence n = competence)
    as Hiff.
  { intros n. unfold HasEqualCompetence, GetCompetence.
    rewrite <- string_compare_zero.
    destruct (Z.eqb_spec (string_compare (m_competence n) competence) 0);
      split; (done || congruence). }
  split; [apply Hiff|]. split; [|done]. by rewrite Hiff.
Qed.

(** X25.  [GetCriticalInfo] answers InfoA for [doctor], InfoB for
    [nurse], InfoC for [caregiver], compared byte for byte, and InfoD for
    every other competence. *)
Theorem GetCriticalInfo_classes (competence : string) :
  (GetCriticalInfo competence = "InfoA"%string <-> competence = "doctor"%string) /\
  (GetCriticalInfo competence = "InfoB"%string <-> competence = "nurse"%string) /\
  (GetCriticalInfo competence = "InfoC"%string <-> competence = "caregiver"%string) /\
  (GetCriticalInfo competence = "InfoD"%string <->
     competence <> "doctor"%string /\ competence <> "nurse"%string /\
     competence <> "caregiver"%string).
Proof.
  unfold GetCriticalInfo.
  destruct (not_compare competence "doctor") eqn:Hd;
    [apply not_compare_true in Hd; subst; repeat split; try done;
     intros (? & ? & ?); done|].
  destruct (not_compare competence "nurse") eqn:Hn;
    [apply not_compare_true in Hn; subst; repeat split; try done;
     intros (? & ? & ?); done|].
  destruct (not_compare competence "caregiver") eqn:Hc;
    [apply not_compare_true in Hc; subst; repeat split; try done;
     intros (? & ? & ?); done|].
  assert (competence <> "doctor"%string)
    by (intros Heq; apply not_compare_true in Heq; congruence).
  assert (competence <> "nurse"%string)
    by (intros Heq; apply not_compare_true in Heq; congruence).
  assert (competence <> "caregiver"%string)
    by (intros Heq; apply not_compare_true in Heq; congruence).
  repeat split; try done.
Qed.

End ProfileFacts.

(** ** Confirming presence; closing calls *)

Section PresenceFacts.

Import Neighbors.

Context {Address : Type} `{EqDecision Address}.

Implicit Types (l : NeighborHandlerList Address) (r q : Neighbor Address).

Lemma TurnNeighborOn_absent (a : Address) l :
  a ∉ (ip <$> l) -> TurnNeighborOn a l = l.
Proof.
  induction l as [|r l IH]; csimpl; [done|].
  rewrite not_elem_of_cons. intros [Hne Hnot].
  destruct (decide (ip r = a)); [congruence | by rewrite IH].
Qed.

(** X12.  [TurnNeighborOn] changes nothing for an address without a
    record, makes a registered address alive, and done twice is the same
    as done once. *)
Theorem TurnNeighborOn_confirms (a : Address) l :
  (IsAlreadyNeighbor a l = false -> TurnNeighborOn a l = l) /\
  (IsAlreadyNeighbor a l = true ->
     IsAliveNeighbor a (TurnNeighborOn a l) = Returns true) /\
  TurnNeighborOn a (TurnNeighborOn a l) = TurnNeighborOn a l.
Proof.
  split; [|split].
  - intros Hno. by apply TurnNeighborOn_absent, IsAlreadyNeighbor_false.
  - intros Hin. destruct (lookups_first_of a (TurnNeighborOn a l)) as (-> & _).
    rewrite first_of_TurnNeighborOn.
    rewrite IsAlreadyNeighbor_first_of in Hin.
    apply bool_decide_eq_true in Hin as [r Hr]. rewrite Hr. simpl.
    by destruct (decide (a = a)).
  - induction l as [|r l IH]; simpl; [done|].
    destruct (decide (ip r = a)) as [Hra|Hra]; simpl.
    + by destruct (decide (ip r = a)).
    + destruct (decide (ip r = a)); [done | by rewrite IH].
Qed.

End PresenceFacts.

Section ClosingFacts.

Import Attendings.

Context {Address : Type} `{EqDecision Address}.

Implicit Types (q : AttendingHandlerList Address) (r : Attending Address).

Lemma attending_deref_seek (x : Address) (pre : AttendingHandlerList Address) q :
  deref (pre ++ q) (seek x q (length pre)) = found_or_fault (first_of x q).
Proof.
  revert pre. induction q as [|r q IH]; intros pre; simpl.
  - unfold deref. rewrite lookup_ge_None_2; [done|]. rewrite length_app. simpl. lia.
  - destruct (decide (ip r = x)) as [Heq|Hne].
    + unfold deref. by rewrite list_lookup_middle.
    + specialize (IH (pre ++ [r])).
      rewrite <- app_assoc, length_app, Nat.add_1_r in IH. exact IH.
Qed.

Lemma attending_lookups_first_of (x : Address) q :
  GetAttendingCriticalData x q
    = outcome_map criticalData (found_or_fault (first_of x q)) /\
  GetAttendingPriority x q
    = outcome_map attendingPriority (found_or_fault (first_of x q)).
Proof.
  unfold GetAttendingCriticalData, GetAttendingPriority.
  pose proof (attending_deref_seek x [] q) as Hseek. simpl in Hseek.
  by rewrite Hseek.
Qed.

Lemma attending_erase_other (ip0 x : Address) q :
  x <> ip0 -> first_of x (erase_first ip0 q) = first_of x q.
Proof.
  intros Hne. induction q as [|r q IH]; simpl; [done|].
  destruct (decide (ip r = ip0)) as [Hr|Hr]; simpl.
  - destruct (decide (ip r = x)); [congruence | done].
  - destruct (decide (ip r = x)); [done | exact IH].
Qed.

Lemma attending_first_of_None (x : Address) q :
  x ∉ (ip <$> q) -> first_of x q = None.
Proof.
  induction q as [|r q IH]; csimpl; [done|].
  rewrite not_elem_of_cons. intros [Hne Hnot].
  destruct (decide (ip r = x)); [congruence | by apply IH].
Qed.

Lemma attending_erase_gone (ip0 : Address) q :
  NoDup (ip <$> q) -> first_of ip0 (erase_first ip0 q) = None.
Proof.
  induction q as [|r q IH]; csimpl; [done|].
  rewrite NoDup_cons. intros [Hnot Hnd].
  destruct (decide (ip r = ip0)) as [<-|Hne].
  - by apply attending_first_of_None.
  - simpl. destruct (decide (ip r = ip0)); [done | by apply IH].
Qed.

(** X17.  [CloseAttending] changes no answer about the call of another
    address.  On a queue of at most 2^31 - 1 calls with one call per
    address, the two lookups fault for the address that was closed. *)
Theorem CloseAttending_other_calls (ip0 x : Address) q :
  (x <> ip0 ->
     GetAttendingCriticalData x (CloseAttending ip0 q)
       = GetAttendingCriticalData x q /\
     GetAttendingPriority x (CloseAttending ip0 q) = GetAttendingPriority x q) /\
  (Z.of_nat (length q) <= INT_MAX -> NoDup (GetAttendingIpList q) ->
     GetAttendingCriticalData ip0 (CloseAttending ip0 q) = Fault /\
     GetAttendingPriority ip0 (CloseAttending ip0 q) = Fault).
Proof.
  split.
  - intros Hne.
    destruct (attending_lookups_first_of x (CloseAttending ip0 q)) as (-> & ->).
    destruct (attending_lookups_first_of x q) as (-> & ->).
    unfold CloseAttending.
    destruct (negb (GetNPendingAttending q =? 0)); [|done].
    by rewrite attending_erase_other.
  - rewrite GetAttendingIpList_fmap. intros Hlen Hnd.
    destruct (attending_lookups_first_of ip0 (CloseAttending ip0 q)) as (-> & ->).
    unfold CloseAttending. rewrite GetNPendingAttending_small by done.
    destruct (Z.eqb_spec (Z.of_nat (length q)) 0) as [Hz|Hz]; simpl.
    + destruct q; [done | simpl in Hz; lia].
    + by rewrite attending_erase_gone.
Qed.

End ClosingFacts.

(** ** Further concrete runs *)

Section DirectoryRuns2.

Import Neighbors.

Open Scope string_scope.

Lemma nurse_and_doctor_ips : GetNeighborIpList nurse_and_doctor = [1%nat; 2%nat].
Proof. reflexivity. Qed.

Lemma nurse_and_doctor_NoDup : NoDup (GetNeighborIpList nurse_and_doctor).
Proof.
  rewrite nurse_and_doctor_ips. apply NoDup_cons. split.
  - intros Hin. apply list_elem_of_singleton in Hin. discriminate.
  - apply NoDup_singleton.
Qed.

Lemma lookups_of_unknown_neighbor_fault_witness :
  IsAlreadyNeighbor 3%nat nurse_and_doctor = false /\
  IsAliveNeighbor 3%nat nurse_and_doctor = Fault /\
  GetNeighborTrust 3%nat nurse_and_doctor = Fault /\
  GetNeighborCompetence 3%nat nurse_and_doctor = Fault /\
  GetNeighborInterests 3%nat nurse_and_doctor = Fault.
Proof.
  split; [reflexivity|].
  apply (lookups_of_unknown_neighbor_fault 3%nat nurse_and_doctor). reflexivity.
Defined.


Lemma UnregisterNeighbor_erases_first_witness :
  IsAlreadyNeighbor 1%nat nurse_and_doctor = true /\
  exists (p : nat) r,
    first_record 1%nat nurse_and_doctor p r /\
    UnregisterNeighbor 1%nat nurse_and_doctor = delete p nurse_and_doctor /\
    GetNeighborIpList (UnregisterNeighbor 1%nat nurse_and_doctor)
      = delete p (GetNeighborIpList nurse_and_doctor) /\
    (NoDup (GetNeighborIpList nurse_and_doctor) ->
       IsAlreadyNeighbor 1%nat (UnregisterNeighbor 1%nat nurse_and_doctor) = false).
Proof.
  split; [reflexivity|].
  apply (UnregisterNeighbor_erases_first 1%nat nurse_and_doctor). reflexivity.
Defined.

Lemma UnregisterNeighbor_other_address_witness :
  2%nat <> 1%nat /\
  IsAlreadyNeighbor 2%nat (UnregisterNeighbor 1%nat nurse_and_doctor)
    = IsAlreadyNeighbor 2%nat nurse_and_doctor /\
  GetNeighborTrust 2%nat (UnregisterNeighbor 1%nat nurse_and_doctor)
    = GetNeighborTrust 2%nat nurse_and_doctor.
Proof.
  assert (2%nat <> 1%nat) as Hne by discriminate.
  split; [exact Hne|].
  destruct (UnregisterNeighbor_other_address 1%nat 2%nat nurse_and_doctor Hne)
    as (Hin & _ & Ht & _).
  split; [exact Hin | exact Ht].
Defined.

(** An empty directory: the call that the source comment forbids. *)
Lemma GetPlusTrustNeighbor_no_candidate_witness :
  (length ["doctor"; "nurse"] < 256)%nat /\
  (forall lab, lab ∈ ["doctor"; "nurse"] ->
     ~ qualifies lab ([] : NeighborHandlerList nat)) /\
  GetPlusTrustNeighbor 3 ["doctor"; "nurse"] ([] : NeighborHandlerList nat)
    = Some Fault.
Proof.
  assert (forall lab, lab ∈ ["doctor"; "nurse"] ->
            ~ qualifies lab ([] : NeighborHandlerList nat)) as Hnone.
  { intros lab _ (r & Hr & _). by apply elem_of_nil in Hr. }
  split; [simpl; lia|]. split; [exact Hnone|].
  apply (GetPlusTrustNeighbor_no_candidate ["doctor"; "nurse"] []);
    [simpl; lia | exact Hnone | simpl; lia].
Defined.

Lemma GetPlusTrustNeighbor_returns_neighbor_witness :
  GetPlusTrustNeighbor 3 ["doctor"; "nurse"] nurse_and_doctor
    = Some (Returns 2%nat) /\
  IsAlreadyNeighbor 2%nat nurse_and_doctor = true /\
  exists r, r ∈ nurse_and_doctor /\ ip r = 2%nat /\
            competence r ∈ ["doctor"; "nurse"] /\
            d_gt (trust r) d_zero = true.
Proof.
  split; [reflexivity|].
  apply (GetPlusTrustNeighbor_returns_neighbor 3 ["doctor"; "nurse"]
           nurse_and_doctor 2%nat).
  reflexivity.
Defined.

(** A round in which both answer, and one in which only the doctor at
    address 2 answers. *)
Lemma discovery_round_witness :
  (NoDup (GetNeighborIpList nurse_and_doctor) /\
   UnregisterOffNeighbors
     (TurnNeighborsOn [2%nat; 1%nat] (TurnOffLiveNeighbors nurse_and_doctor))
     = Some (Returns (set_around true <$> nurse_and_doctor))) /\
  (mkNeighbor 1%nat "nurse" ["vitals"] d_0_9 true ∈ nurse_and_doctor /\
   UnregisterOffNeighbors
     (TurnNeighborsOn [2%nat] (TurnOffLiveNeighbors nurse_and_doctor))
     = Some Fault).
Proof.
  destruct (discovery_round [2%nat; 1%nat] nurse_and_doctor) as [Hall _].
  destruct (discovery_round [2%nat] nurse_and_doctor) as [_ Hsome].
  assert (mkNeighbor 1%nat "nurse" ["vitals"] d_0_9 true ∈ nurse_and_doctor)
    as Hin by apply list_elem_of_here.
  split; (split; [done || exact nurse_and_doctor_NoDup|]).
  - apply Hall; [exact nurse_and_doctor_NoDup|].
    rewrite nurse_and_doctor_ips. intros a Ha.
    apply elem_of_cons in Ha as [->|Ha];
      [apply list_elem_of_further, list_elem_of_here|].
    apply list_elem_of_singleton in Ha as ->. apply list_elem_of_here.
  - apply (Hsome _ Hin). simpl. intros Habs.
    apply list_elem_of_singleton in Habs. discriminate.
Defined.

(** The failing input of C4: one record, marked stale. *)
Example stale_record_faults :
  UnregisterOffNeighbors
    (TurnOffLiveNeighbors (RegisterNeighbor 1%nat "nurse" [] d_0_7 []))
    = Some Fault.
Proof. reflexivity. Qed.

Example nothing_stale_nothing_removed :
  UnregisterOffNeighbors nurse_and_doctor = Some (Returns nurse_and_doctor).
Proof. reflexivity. Qed.

Lemma UnregisterOffNeighbors_leaves_alive_witness :
  UnregisterOffNeighbors nurse_and_doctor = Some (Returns nurse_and_doctor) /\
  nurse_and_doctor = nurse_and_doctor /\
  (forall x : nat, IsAlreadyNeighbor x nurse_and_doctor = true ->
     IsAliveNeighbor x nurse_and_doctor = Returns true) /\
  UnregisterOffNeighbors nurse_and_doctor = Some (Returns nurse_and_doctor).
Proof.
  assert (UnregisterOffNeighbors nurse_and_doctor
          = Some (Returns nurse_and_doctor)) as Hret by reflexivity.
  split; [exact Hret|].
  exact (UnregisterOffNeighbors_leaves_alive nurse_and_doctor nurse_and_doctor
           Hret).
Defined.

Lemma GetNNeighbors_counts_witness :
  Z.of_nat (length nurse_and_doctor) <= INT_MAX /\
  GetNNeighbors nurse_and_doctor
    = Z.of_nat (length (GetNeighborIpList nurse_and_doctor)) /\
  (GetNNeighbors nurse_and_doctor = 0
     <-> IsThereAnyNeighbor nurse_and_doctor = false) /\
  IsThereAnyNeighbor (RegisterNeighbor 3%nat "nurse" [] d_0_7 nurse_and_doctor)
    = true.
Proof.
  assert (Z.of_nat (length nurse_and_doctor) <= INT_MAX) as Hlen by discriminate.
  split; [exact Hlen|].
  exact (GetNNeighbors_counts 3%nat "nurse" [] d_0_7 nurse_and_doctor Hlen).
Defined.

Lemma TurnNeighborOn_confirms_witness :
  (IsAlreadyNeighbor 3%nat nurse_and_doctor = false /\
   TurnNeighborOn 3%nat nurse_and_doctor = nurse_and_doctor) /\
  (IsAlreadyNeighbor 2%nat (TurnOffLiveNeighbors nurse_and_doctor) = true /\
   IsAliveNeighbor 2%nat
     (TurnNeighborOn 2%nat (TurnOffLiveNeighbors nurse_and_doctor))
     = Returns true).
Proof.
  destruct (TurnNeighborOn_confirms 3%nat nurse_and_doctor) as (Hno & _).
  destruct (TurnNeighborOn_confirms 2%nat (TurnOffLiveNeighbors nurse_and_doctor))
    as (_ & Hin & _).
  split; (split; [reflexivity|]); [apply Hno | apply Hin]; reflexivity.
Defined.

End DirectoryRuns2.

Section QueueRuns2.

Import Attendings.

Open Scope string_scope.

Lemma one_call_first :
  first_attending 1%nat one_call 0 (mkAttending 1%nat "InfoA" d_zero 1).
Proof. repeat split. intros p' r Hlt. lia. Qed.

Lemma one_call_no_2 : forall r, r ∈ one_call -> ip r <> 2%nat.
Proof. intros r Hr. apply list_elem_of_singleton in Hr. by subst. Qed.

(** A second call for address 1 with other data: the lookups still give
    the data and the priority of the first. *)
Lemma attending_lookups_read_first_witness :
  first_attending 1%nat one_call 0 (mkAttending 1%nat "InfoA" d_zero 1) /\
  GetAttendingCriticalData 1%nat
    (RegisterAttendingCall 1%nat "InfoB" 3 d_zero one_call) = Returns "InfoA" /\
  GetAttendingPriority 1%nat
    (RegisterAttendingCall 1%nat "InfoB" 3 d_zero one_call) = Returns 1.
Proof.
  split; [exact one_call_first|].
  destruct (attending_lookups_read_first 1%nat 1%nat "InfoB" 3 d_zero one_call
              0 _ one_call_first) as (_ & _ & Hd & Hp).
  split; [exact Hd | exact Hp].
Defined.

Lemma attending_round_trip_witness :
  (forall r, r ∈ one_call -> ip r <> 2%nat) /\
  GetAttendingCriticalData 2%nat
    (RegisterAttendingCall 2%nat "InfoB" 2 d_zero one_call) = Returns "InfoB" /\
  GetAttendingPriority 2%nat
    (RegisterAttendingCall 2%nat "InfoB" 2 d_zero one_call) = Returns 2.
Proof.
  split; [exact one_call_no_2|].
  exact (attending_round_trip 2%nat "InfoB" 2 d_zero one_call one_call_no_2).
Defined.

Lemma attending_lookups_absent_fault_witness :
  (forall r, r ∈ one_call -> ip r <> 2%nat) /\
  GetAttendingCriticalData 2%nat one_call = Fault /\
  GetAttendingPriority 2%nat one_call = Fault.
Proof.
  split; [exact one_call_no_2|].
  exact (attending_lookups_absent_fault 2%nat one_call one_call_no_2).
Defined.

Lemma GetAttendingIpList_follows_queue_witness :
  Z.of_nat (length one_call) <= INT_MAX /\
  GetAttendingIpList (CloseAttending 1%nat one_call)
    = delete 0%nat (GetAttendingIpList one_call).
Proof.
  assert (Z.of_nat (length one_call) <= INT_MAX) as Hlen by discriminate.
  split; [exact Hlen|].
  destruct (GetAttendingIpList_follows_queue 1%nat "InfoA" 1 d_zero one_call)
    as (_ & _ & Hclose).
  apply (Hclose Hlen 0%nat _ one_call_first).
Defined.

Lemma CloseAttending_other_calls_witness :
  (2%nat <> 1%nat /\
   GetAttendingCriticalData 2%nat
     (CloseAttending 1%nat
        (RegisterAttendingCall 2%nat "InfoB" 2 d_zero one_call))
     = GetAttendingCriticalData 2%nat
         (RegisterAttendingCall 2%nat "InfoB" 2 d_zero one_call)) /\
  (Z.of_nat (length one_call) <= INT_MAX /\
   NoDup (GetAttendingIpList one_call) /\
   GetAttendingCriticalData 1%nat (CloseAttending 1%nat one_call) = Fault).
Proof.
  assert (2%nat <> 1%nat) as Hne by discriminate.
  assert (Z.of_nat (length one_call) <= INT_MAX) as Hlen by discriminate.
  assert (NoDup (GetAttendingIpList one_call)) as Hnd by apply NoDup_singleton.
  destruct (CloseAttending_other_calls 1%nat 2%nat
              (RegisterAttendingCall 2%nat "InfoB" 2 d_zero one_call))
    as (Hother & _).
  destruct (CloseAttending_other_calls 1%nat 1%nat one_call) as (_ & Hgone).
  split; [split; [exact Hne | apply (Hother Hne)]|].
  split; [exact Hlen|]. split; [exact Hnd | apply (Hgone Hlen Hnd)].
Defined.

End QueueRuns2.

Section RegistryRuns2.

Import Handlers.

(** The receive paths of a node whose devices have their number as
    address. *)
Example non_promiscuous_path :
  NonPromiscReceiveFromDevice (fun dev : nat => dev) tt (Some 7%nat) tt 2048
    10%nat three_handlers
  = Returns (true, [mkInvocation 1%nat (Some 7%nat) tt 2048 10%nat 7%nat tt;
                    mkInvocation 4%nat (Some 7%nat) tt 2048 10%nat 7%nat tt]).
Proof. reflexivity. Qed.

Lemma receive_paths_keep_apart_witness :
  NonPromiscReceiveFromDevice (fun dev : nat => dev) tt (Some 7%nat) tt 2048
    10%nat three_handlers
  = Returns (true, [mkInvocation 1%nat (Some 7%nat) tt 2048 10%nat 7%nat tt;
                    mkInvocation 4%nat (Some 7%nat) tt 2048 10%nat 7%nat tt]) /\
  inv_to (mkInvocation 4%nat (Some 7%nat) tt 2048 10%nat 7%nat tt) = 7%nat /\
  inv_packetType (mkInvocation 4%nat (Some 7%nat) tt 2048 10%nat 7%nat tt) = tt /\
  exists e, e ∈ m_handlers three_handlers /\
            handler e
              = inv_handler (mkInvocation 4%nat (Some 7%nat) tt 2048 10%nat 7%nat tt) /\
            promiscuous e = false.
Proof.
  split; [reflexivity|].
  destruct (receive_paths_keep_apart (fun dev : nat => dev) tt (Some 7%nat) tt
              2048 10%nat 11%nat tt three_handlers) as (_ & Hnon & _).
  apply (Hnon 7%nat _ _ eq_refl).
  apply list_elem_of_further, list_elem_of_here.
Defined.

Lemma three_handlers_no_9 :
  forall e, e ∈ m_handlers three_handlers -> handler e <> 9%nat.
Proof.
  intros e He. unfold three_handlers in He. simpl in He.
  repeat (apply elem_of_cons in He as [->|He]); try discriminate.
  by apply elem_of_nil in He.
Qed.

Lemma UnregisterProtocolHandler_undoes_registration_witness :
  (forall e, e ∈ m_handlers three_handlers -> handler e <> 9%nat) /\
  m_handlers
    (UnregisterProtocolHandler 9%nat
       (RegisterProtocolHandler 9%nat 0 None true three_handlers))
    = m_handlers three_handlers /\
  promisc_callbacks
    (UnregisterProtocolHandler 9%nat
       (RegisterProtocolHandler 9%nat 0 None true three_handlers))
    = promisc_callbacks
        (RegisterProtocolHandler 9%nat 0 None true three_handlers).
Proof.
  split; [exact three_handlers_no_9|].
  destruct (UnregisterProtocolHandler_undoes_registration
              (Packet := unit) (Address := nat) (PacketType := unit)
              9%nat 0 None true three_handlers three_handlers_no_9)
    as (Hh & _ & Hc & _).
  split; [exact Hh | exact Hc].
Defined.

End RegistryRuns2.

Section DeviceRuns.

Import Devices.

(** Listener 2 was registered after device 7 and before device 8: it
    has been called with both, in that order. *)
Example late_listener_catches_up :
  notifications 2%nat (effects two_devices) = [7%nat; 8%nat] /\
  notifications 1%nat (effects two_devices) = [7%nat; 8%nat] /\
  m_devices two_devices = [7%nat; 8%nat].
Proof. repeat split. Qed.

Lemma AddDevice_round_trip_witness :
  Z.of_nat (length (m_devices two_devices)) < 4294967296 /\
  exists node',
    AddDevice (Some 9%nat) two_devices
      = Returns (Z.of_nat (length (m_devices two_devices)), node') /\
    GetNDevices two_devices = Z.of_nat (length (m_devices two_devices)) /\
    GetDevice (Z.of_nat (length (m_devices two_devices))) node' = Returns 9%nat /\
    SetIfIndex 9%nat (Z.of_nat (length (m_devices two_devices))) ∈ effects node' /\
    (forall j : Z, 0 <= j < Z.of_nat (length (m_devices two_devices)) ->
       GetDevice j node' = GetDevice j two_devices) /\
    (forall j : Z, Z.of_nat (length (m_devices two_devices)) < j < 4294967296 ->
       GetDevice j node' = Fault) /\
    AddDevice None two_devices = Fault.
Proof.
  assert (Z.of_nat (length (m_devices two_devices)) < 4294967296) as Hlen
    by reflexivity.
  split; [exact Hlen|].
  exact (AddDevice_round_trip 9%nat two_devices Hlen).
Defined.

Lemma sample_calls_keep_2 : CallUnregisterListener 2%nat ∉ sample_device_calls.
Proof.
  intros Hin. unfold sample_device_calls in Hin.
  repeat (apply elem_of_cons in Hin as [Hin|Hin]; [discriminate|]).
  by apply elem_of_nil in Hin.
Qed.

Lemma listener_learns_every_device_witness :
  registered_times 2%nat sample_device_calls = 1%nat /\
  notifications 2%nat (effects (after_calls sample_device_calls fresh_node))
  = m_devices (after_calls sample_device_calls fresh_node).
Proof.
  split; [reflexivity|].
  exact (listener_learns_every_device 2%nat sample_device_calls eq_refl
           sample_calls_keep_2).
Defined.

Lemma two_devices_listeners_NoDup : NoDup (m_deviceAdditionListeners two_devices).
Proof.
  change (NoDup [1%nat; 2%nat]). apply NoDup_cons. split.
  - intros Hin. apply list_elem_of_singleton in Hin. discriminate.
  - apply NoDup_singleton.
Qed.

Lemma unregistered_listener_not_called_witness :
  NoDup (m_deviceAdditionListeners two_devices) /\
  notifications 2%nat
    (effects (AddDevice_at 9%nat
                (UnregisterDeviceAdditionListener 2%nat two_devices)).2)
  = notifications 2%nat (effects two_devices).
Proof.
  split; [exact two_devices_listeners_NoDup|].
  apply (unregistered_listener_not_called 2%nat 9%nat two_devices
           two_devices_listeners_NoDup).
Defined.

End DeviceRuns.
